(** * poc_webapp: the event / person / image backend of [main.go]

    A shallow embedding of the HTTP handlers of [main.go] and of the
    collaborators they drive (the [fmt] formatter, the pooled SQL handle
    with its transactions, the image directory), followed by the
    properties of the handlers. *)

From Stdlib Require Import ZArith String Ascii List Bool Lia DecimalString.
Import ListNotations.

Local Open Scope list_scope.
Local Open Scope string_scope.
Local Open Scope Z_scope.

Set Implicit Arguments.

(** ** Package [fmt] *)

Module Fmt.

(** [%d] applied to an [int]: the decimal numeral, with a minus sign for a
    negative value. *)
Definition verb_d (n : Z) : string := NilZero.string_of_int (Z.to_int n).

(** The byte of [s] at index [i]; callers test [i < len] first. *)
Definition at_ (s : string) (i : nat) : N :=
  match String.get i s with
  | Some c => N_of_ascii c
  | None => 0%N
  end.

Definition is_byte (c : ascii) (s : string) (i : nat) : bool :=
  (at_ s i =? N_of_ascii c)%N.

Definition is_digit (s : string) (i : nat) : bool :=
  ((48 <=? at_ s i) && (at_ s i <=? 57))%N.

(** [tooLarge]: a width or index above one million is refused. *)
Definition tooLarge (x : Z) : bool := (1000000 <? x) || (x <? -1000000).

(** [parsenum(s, start, end)]: the number starting at [start], whether
    there was one, and the index after it. *)
Fixpoint parsenum_loop (fuel : nat) (s : string) (newi end_ : nat)
    (num : Z) (isnum : bool) : Z * bool * nat :=
  match fuel with
  | O => (num, isnum, newi)
  | S fuel' =>
      if (newi <? end_)%nat && is_digit s newi then
        if tooLarge num then (0, false, end_)
        else parsenum_loop fuel' s (S newi) end_
               (num * 10 + (Z.of_N (at_ s newi) - 48)) true
      else (num, isnum, newi)
  end.

Definition parsenum (s : string) (start end_ : nat) : Z * bool * nat :=
  if (end_ <=? start)%nat then (0, false, end_)
  else parsenum_loop (end_ - start) s start end_ 0 false.

(** The search of [parseArgNumber] for the closing bracket, from index
    [j] of the text that starts at the opening bracket [i0]. *)
Fixpoint find_bracket (fuel : nat) (s : string) (i0 j : nat) : nat * bool :=
  match fuel with
  | O => (1%nat, false)
  | S fuel' =>
      if (i0 + j <? String.length s)%nat then
        if is_byte "]" s (i0 + j) then
          let '(_, ok, newi) := parsenum s (i0 + 1) (i0 + j) in
          if negb ok || negb (newi =? i0 + j)%nat then (S j, false)
          else (S j, true)
        else find_bracket fuel' s i0 (S j)
      else (1%nat, false)
  end.

(** [parseArgNumber(format[i0:])]: the width of the bracketed index and
    whether it is well formed. With no operand the index itself is never
    usable, so only these two results are kept. *)
Definition parseArgNumber (s : string) (i0 : nat) : nat * bool :=
  if (String.length s - i0 <? 3)%nat then (1%nat, false)
  else find_bracket (String.length s) s i0 1.

(** The scanning state of one verb: the index in the format, [goodArgNum]
    and [afterIndex]. *)
Record verb_state := VS { vs_i : nat; vs_good : bool; vs_after : bool }.

(** [argNumber] with [numArgs = 0]: an index in brackets is always out of
    range, so [goodArgNum] is cleared whenever one is present. *)
Definition argNumber (s : string) (v : verb_state) : verb_state :=
  if (String.length s <=? vs_i v)%nat || negb (is_byte "[" s (vs_i v)) then
    VS (vs_i v) (vs_good v) false
  else
    let '(wid, ok) := parseArgNumber s (vs_i v) in
    VS (vs_i v + wid) false ok.

(** The flags [#0+- ] after the percent sign. *)
Fixpoint skip_flags (fuel : nat) (s : string) (i : nat) : nat :=
  match fuel with
  | O => i
  | S fuel' =>
      if (i <? String.length s)%nat
         && (is_byte "#" s i || is_byte "0" s i || is_byte "+" s i
             || is_byte "-" s i || is_byte " " s i)
      then skip_flags fuel' s (S i)
      else i
  end.

(** The plain text before the next percent sign. *)
Fixpoint skip_text (fuel : nat) (s : string) (i : nat) : nat :=
  match fuel with
  | O => i
  | S fuel' =>
      if (i <? String.length s)%nat && negb (is_byte "%" s i)
      then skip_text fuel' s (S i)
      else i
  end.

(** Whether index [i] holds a UTF-8 continuation byte in [lo..hi]. *)
Definition in_range (s : string) (i : nat) (lo hi : N) : bool :=
  ((i <? String.length s)%nat && (lo <=? at_ s i) && (at_ s i <=? hi))%N.

(** The width of the rune that starts at [i], as [utf8.DecodeRuneInString]
    accepts it; [None] for an invalid or truncated encoding. *)
Definition rune_width (s : string) (i : nat) : option nat :=
  let b := at_ s i in
  let tail2 := in_range s (i + 2) 128 191 in
  let tail3 := in_range s (i + 3) 128 191 in
  (if b <? 128 then Some 1%nat
   else if b <? 194 then None
   else if b <=? 223 then
     if in_range s (i + 1) 128 191 then Some 2%nat else None
   else if b <=? 239 then
     let lo := if b =? 224 then 160 else 128 in
     let hi := if b =? 237 then 159 else 191 in
     if in_range s (i + 1) lo hi && tail2 then Some 3%nat else None
   else if b <=? 244 then
     let lo := if b =? 240 then 144 else 128 in
     let hi := if b =? 244 then 143 else 191 in
     if in_range s (i + 1) lo hi && tail2 && tail3 then Some 4%nat else None
   else None)%N.

(** U+FFFD as [writeRune] encodes it. *)
Definition rune_error : string :=
  String (ascii_of_N 239) (String (ascii_of_N 191) (String (ascii_of_N 189) EmptyString)).

(** The verb at [i] as [badArgNum] and [missingArg] write it back, with the
    number of bytes it takes from the format. *)
Definition verb_at (s : string) (i : nat) : string * nat :=
  match rune_width s i with
  | Some w => (String.substring i w s, w)
  | None => (rune_error, 1%nat)
  end.

(** [doPrintf(format, a)] with an empty operand list [a], which is how the
    list handlers call [Sprintf]: plain text is copied, and every verb finds
    no operand. *)
Fixpoint doPrintf (fuel : nat) (s : string) (i : nat) (buf : string) : string :=
  match fuel with
  | O => buf
  | S fuel' =>
      let end_ := String.length s in
      let j := skip_text (end_ - i) s i in
      let buf := buf ++ String.substring i (j - i) s in
      if (end_ <=? j)%nat then buf
      else
        let i1 := skip_flags (end_ - S j) s (S j) in
        let v := argNumber s (VS i1 true false) in
        (* width *)
        let '(v, buf) :=
          if (vs_i v <? end_)%nat && is_byte "*" s (vs_i v) then
            (VS (S (vs_i v)) (vs_good v) false, buf ++ "%!(BADWIDTH)")
          else
            let '(_, present, newi) := parsenum s (vs_i v) end_ in
            (VS newi (vs_good v && negb (vs_after v && present)) (vs_after v),
             buf) in
        (* precision *)
        let '(v, buf) :=
          if (vs_i v <? end_)%nat && is_byte "." s (vs_i v) then
            let v := argNumber s
                       (VS (S (vs_i v)) (vs_good v && negb (vs_after v))
                           (vs_after v)) in
            if (vs_i v <? end_)%nat && is_byte "*" s (vs_i v) then
              (VS (S (vs_i v)) (vs_good v) false, buf ++ "%!(BADPREC)")
            else
              let '(_, _, newi) := parsenum s (vs_i v) end_ in
              (VS newi (vs_good v) (vs_after v), buf)
          else (v, buf) in
        let v := if vs_after v then v else argNumber s v in
        if (end_ <=? vs_i v)%nat then buf ++ "%!(NOVERB)"
        else
          let '(verb, size) := verb_at s (vs_i v) in
          let buf :=
            if is_byte "%" s (vs_i v) then buf ++ "%"
            else if negb (vs_good v) then buf ++ "%!" ++ verb ++ "(BADINDEX)"
            else buf ++ "%!" ++ verb ++ "(MISSING)" in
          doPrintf fuel' s (vs_i v + size) buf
  end.

(** [fmt.Sprintf(format)], no operand. *)
Definition Sprintf0 (format : string) : string :=
  doPrintf (S (String.length format)) format 0 EmptyString.

End Fmt.

(** ** Data model *)

(** [time.Time], as the instant it denotes. *)
Definition Time := Z.

Record Event := {
  EventID : Z;
  AccountID : Z;
  Title : string;
  Description : string;
  EventDate : Time
}.

Module NewEvent.
Record t := mk { Title : string; Description : string; EventDate : Z }.
End NewEvent.

Record Person := { PersonId : Z; FirstName : string; LastName : string }.

Record Image := { ImageId : Z; ImageName : string; ContentType : string }.

(** [ImageAndPath] embeds an [Image]; the embedded field is [Image_]. *)
Record ImageAndPath := { ImagePath : string; Image_ : Image }.

Record EventDatail := {
  Event_ : Event;
  Persons : list Person;
  ImageAndPaths : list ImageAndPath
}.

(** The zero values [var x T] and [new(T)] start from. *)
Definition zeroEvent : Event := Build_Event 0 0 EmptyString EmptyString 0.
Definition zeroNewEvent : NewEvent.t := NewEvent.mk EmptyString EmptyString 0.
Definition zeroPerson : Person := Build_Person 0 EmptyString EmptyString.
Definition zeroImage : Image := Build_Image 0 EmptyString EmptyString.

Definition frontendContentsPath : string := "../public".
Definition imagesPath : string := "../public/images".
Definition mysqlErrNumDuplicateEntry : Z := 1062.

(** Conversion to [uint16]. *)
Definition uint16 (n : Z) : Z := n mod 65536.

(** ** Errors *)

(** The error values the handlers tell apart: [sql.ErrNoRows], a
    [mysql.MySQLError] with its [Number], and every other error (driver,
    network, file system, request decoding), which they only log. *)
Inductive error :=
| ErrNoRows
| MySQLError (Number : Z) (Message : string)
| ErrOther (msg : string).

(** [errors.Is(err, sql.ErrNoRows)]. *)
Definition is_ErrNoRows (e : error) : bool :=
  match e with ErrNoRows => true | _ => false end.

(** The type assertion of [err] to a MySQL error followed by
    [ok && mysqlErr.Number == uint16(mysqlErrNumDuplicateEntry)]. *)
Definition is_duplicate_entry (e : error) : bool :=
  match e with
  | MySQLError number _ => number =? uint16 mysqlErrNumDuplicateEntry
  | _ => false
  end.

(** ** The relational store *)

(** A statement argument, as the handlers pass them: a path parameter is a
    [string], an id read from a decoded body is an [int]. *)
Inductive SqlArg := AStr (s : string) | AInt (n : Z).

(** A result row, by the columns it carries. *)
Inductive Row :=
| RowEvent (e : Event)                                   (* all columns of [events] *)
| RowEventCols (event_id : Z) (title description : string) (event_date : Time)
| RowPerson (p : Person)
| RowImage (i : Image)
| RowInt (n : Z).

(** Modelled from the spec: the schema, whose table definitions are not
    among the sources. The three entity tables hold the columns the structs
    name for them; the two tagging tables hold pure association rows
    (event_id, person_id) and (event_id, image_id). *)
Record Tables := {
  events : list Event;
  persons : list Person;
  images : list Image;
  event_person_tagging : list (Z * Z);
  event_image_tagging : list (Z * Z)
}.

(** Modelled from the spec: entity ids are generated by the store. This is
    the next id of each entity table. *)
Record AutoInc := { next_event : Z; next_person : Z; next_image : Z }.

(** What the engine decides on its own and the program cannot see: how a
    textual parameter reads as a number when compared with or stored in an
    integer column, how an integer parameter reads as a date, and what a list
    query returns once raw text was appended to it. *)
Record Engine := {
  sql_int : string -> Z;
  sql_datetime : Z -> Time;
  sql_tail : string -> string -> Tables -> error + list Row
}.

Definition TAB : string := String (ascii_of_nat 9) EmptyString.

(** The statements the schema has to answer. *)
Module Sql.
Definition insert_event : string :=
  "INSERT INTO `events`" ++ TAB ++
  "(`event_id`, `account_id`, `title`, `description`, `event_date`) VALUES (default,1, ?, ?, ?)".
Definition insert_person : string :=
  "INSERT INTO `persons`" ++ TAB ++
  "(`person_id`, `first_name`, `last_name`) VALUES (default, ?, ?)".
Definition insert_image : string :=
  "INSERT INTO `images` (`image_id`, `image_name`, `mime_type`) VALUES (default, ?, ?)".
Definition insert_person_tag : string :=
  "INSERT INTO `event_person_tagging` (`event_id`, `person_id`) VALUES (?, ?)".
Definition insert_image_tag : string :=
  "INSERT INTO `event_image_tagging` (`event_id`, `image_id`) VALUES (?, ?)".
Definition delete_event : string := "DELETE FROM `events` WHERE `event_id` = ?".
Definition delete_person : string := "DELETE FROM `persons` WHERE `person_id` = ?".
Definition delete_image : string := "DELETE FROM `images` WHERE `image_id` = ?".
Definition event_by_id : string := "SELECT * FROM `events` WHERE `event_id` = ?".
Definition person_by_id : string := "SELECT * FROM `persons` WHERE `person_id` = ?".
Definition image_by_id : string := "SELECT * FROM `images` WHERE `image_id` = ?".
Definition persons_of_event : string :=
  "select * from persons where person_id in (select distinct(person_id) from event_person_tagging where event_id =?);".
Definition images_of_event : string :=
  "select * from images where image_id in (select distinct(image_id) from event_image_tagging where event_id =?);".
Definition last_insert_id : string := "SELECT LAST_INSERT_ID()".
Definition list_events : string :=
  "select event_id, title, description, event_date from events".
Definition list_persons : string := "select * from persons".
Definition list_images : string := "select * from images".
End Sql.

Section Store.

Variable eng : Engine.

(** A parameter bound to an integer column. *)
Definition num (a : SqlArg) : Z :=
  match a with AStr s => sql_int eng s | AInt n => n end.

Definition tagged (tags : list (Z * Z)) (event_id id : Z) : bool :=
  existsb (fun r => (fst r =? event_id) && (snd r =? id)) tags.

Definition unsupported {A} : error + A := inl (ErrOther "unsupported statement").

(** [Exec]: the statement's effect on the rows, on the id counters and on
    the connection's last generated id. Constraint violations are not
    decided here: whether a table has a unique key is the schema's business,
    and a violation reaches the handlers as a failed call (see [fault]). *)
Definition sql_exec (q : string) (args : list SqlArg)
    (t : Tables) (ai : AutoInc) (last : Z) : error + (Tables * AutoInc * Z) :=
  let '(Build_Tables ev pe im pt it) := t in
  let '(Build_AutoInc ne np ni) := ai in
  match args with
  | [AStr a; AStr b; AInt d] =>
      if String.eqb q Sql.insert_event then
        inr (Build_Tables (ev ++ [Build_Event ne 1 a b (sql_datetime eng d)]) pe im pt it,
             Build_AutoInc (ne + 1) np ni, ne)
      else unsupported
  | [AStr a; AStr b] =>
      if String.eqb q Sql.insert_person then
        inr (Build_Tables ev (pe ++ [Build_Person np a b]) im pt it,
             Build_AutoInc ne (np + 1) ni, np)
      else if String.eqb q Sql.insert_image then
        inr (Build_Tables ev pe (im ++ [Build_Image ni a b]) pt it,
             Build_AutoInc ne np (ni + 1), ni)
      else unsupported
  | [a; AInt b] =>
      if String.eqb q Sql.insert_person_tag then
        inr (Build_Tables ev pe im (pt ++ [(num a, b)]) it, ai, last)
      else if String.eqb q Sql.insert_image_tag then
        inr (Build_Tables ev pe im pt (it ++ [(num a, b)]), ai, last)
      else unsupported
  | [a] =>
      if String.eqb q Sql.delete_event then
        inr (Build_Tables (filter (fun e => negb (EventID e =? num a)) ev) pe im pt it,
             ai, last)
      else if String.eqb q Sql.delete_person then
        inr (Build_Tables ev (filter (fun p => negb (PersonId p =? num a)) pe) im pt it,
             ai, last)
      else if String.eqb q Sql.delete_image then
        inr (Build_Tables ev pe (filter (fun i => negb (ImageId i =? num a)) im) pt it,
             ai, last)
      else unsupported
  | _ => unsupported
  end.

(** The text appended to a list query, when the query starts with [base]. *)
Definition tail_of (base q : string) : option string :=
  if String.prefix base q
  then Some (String.substring (String.length base)
               (String.length q - String.length base) q)
  else None.

Definition select_tail (base q : string) (all : list Row) (t : Tables)
    : option (error + list Row) :=
  match tail_of base q with
  | Some EmptyString => Some (inr all)
  | Some tail => Some (sql_tail eng base tail t)
  | None => None
  end.

(** [Get] and [Queryx]: the rows a query returns, in table order. *)
Definition sql_query (q : string) (args : list SqlArg) (t : Tables) (last : Z)
    : error + list Row :=
  match args with
  | [a] =>
      if String.eqb q Sql.event_by_id then
        inr (map RowEvent (filter (fun e => EventID e =? num a) (events t)))
      else if String.eqb q Sql.person_by_id then
        inr (map RowPerson (filter (fun p => PersonId p =? num a) (persons t)))
      else if String.eqb q Sql.image_by_id then
        inr (map RowImage (filter (fun i => ImageId i =? num a) (images t)))
      else if String.eqb q Sql.persons_of_event then
        inr (map RowPerson
               (filter (fun p => tagged (event_person_tagging t) (num a) (PersonId p))
                  (persons t)))
      else if String.eqb q Sql.images_of_event then
        inr (map RowImage
               (filter (fun i => tagged (event_image_tagging t) (num a) (ImageId i))
                  (images t)))
      else unsupported
  | [] =>
      if String.eqb q Sql.last_insert_id then inr [RowInt last]
      else
        match select_tail Sql.list_events q
                (map (fun e => RowEventCols (EventID e) (Title e) (Description e)
                                 (EventDate e)) (events t)) t with
        | Some r => r
        | None =>
        match select_tail Sql.list_persons q (map RowPerson (persons t)) t with
        | Some r => r
        | None =>
        match select_tail Sql.list_images q (map RowImage (images t)) t with
        | Some r => r
        | None => unsupported
        end end end
  | _ => unsupported
  end.

End Store.

(** ** Requests, responses and the world a handler runs in *)

Module http.
Definition StatusOK : Z := 200.
Definition StatusCreated : Z := 201.
Definition StatusNoContent : Z := 204.
Definition StatusBadRequest : Z := 400.
Definition StatusNotFound : Z := 404.
Definition StatusConflict : Z := 409.
Definition StatusInternalServerError : Z := 500.
End http.

(** An uploaded part: [Filename], [Header.Get("Content-Type")], [Size] and
    the bytes [Open] gives access to. *)
Record FileHeader := {
  Filename : string;
  HeaderContentType : string;
  Size : Z;
  content : string
}.

(** What [c.Bind] finds in the request body for a destination of type [A]:
    a value; text that is not JSON, which the decoder rejects before it
    stores anything; or JSON that does not fit, of which the decoder stores
    the part that fits before it fails. *)
Inductive Body (A : Type) :=
| Decodes (a : A)
| Undecodable (e : error)
| Mismatch (a : A) (e : error).
Arguments Undecodable {A} e.

Record Context (B : Type) := {
  Param : string -> string;
  QueryParam : string -> string;
  body : Body B;
  FormFile : string -> error + FileHeader
}.

(** The value written by [c.String], [c.NoContent] and [c.JSON]. *)
Inductive Payload :=
| NoContent
| Text (s : string)
| JSONEvents (l : list Event)
| JSONEventDetail (d : EventDatail)
| JSONPersons (l : list Person)
| JSONPerson (p : Person)
| JSONImages (l : list ImageAndPath)
| JSONImage (i : ImageAndPath)
| JSONId (key : string) (id : Z).

(** The response a handler writes before it returns. *)
Inductive Response := Reply (status : Z) (p : Payload).

Inductive LogArg :=
| LErr (e : error)
| LStr (s : string)
| LNewEvent (e : NewEvent.t)
| LPerson (p : Person).

(** A line of the logger ([Errorf]; [Fatalf] and [Fatal], which end the
    process after writing it) or of standard output ([Printf]). *)
Inductive LogEntry :=
| Errorf (format : string) (args : list LogArg)
| Fatalf (format : string) (args : list LogArg)
| Fatal (args : list LogArg)
| Printf (line : string).

(** The calls a handler makes on the store and on the file system. *)
Inductive Call :=
| CallBeginx
| CallTxExec (q : string) (args : list SqlArg)
| CallTxGet (q : string) (args : list SqlArg)
| CallCommit
| CallRollback
| CallGet (q : string) (args : list SqlArg)
| CallQueryx (q : string) (args : list SqlArg)
| CallOpen (filename : string)
| CallCreate (path : string)
| CallCopy (path : string)
| CallClose (path : string).

(** An open transaction: its view of the rows and the last id generated on
    its connection. *)
Record Tx := { tx_tables : Tables; tx_last_id : Z }.

(** The world of one request. [tables] holds the committed rows; [autoinc]
    is not transactional. [faults] schedules the failures of the calls that
    can fail for reasons outside the program: each such call takes the head,
    and fails with it when it is [Some]. [reachable] tells whether the pool
    can dial the store at all. [trace] lists the calls made, oldest first. *)
Record World := {
  reachable : bool;
  tables : Tables;
  autoinc : AutoInc;
  tx : option Tx;
  disk : list (string * string);
  logs : list LogEntry;
  trace : list Call;
  faults : list (option error)
}.

Definition set_store (t : Tables) (ai : AutoInc) (x : option Tx) (w : World) : World :=
  Build_World (reachable w) t ai x (disk w) (logs w) (trace w) (faults w).
Definition set_tx (x : option Tx) (w : World) : World :=
  set_store (tables w) (autoinc w) x w.
Definition set_disk (d : list (string * string)) (w : World) : World :=
  Build_World (reachable w) (tables w) (autoinc w) (tx w) d (logs w) (trace w) (faults w).
Definition add_log (l : LogEntry) (w : World) : World :=
  Build_World (reachable w) (tables w) (autoinc w) (tx w) (disk w) (logs w ++ [l])
    (trace w) (faults w).
Definition add_call (c : Call) (w : World) : World :=
  Build_World (reachable w) (tables w) (autoinc w) (tx w) (disk w) (logs w)
    (trace w ++ [c]) (faults w).
Definition set_faults (f : list (option error)) (w : World) : World :=
  Build_World (reachable w) (tables w) (autoinc w) (tx w) (disk w) (logs w) (trace w) f.

(** [os.Create]: the file exists and is empty afterwards. *)
Definition create_file (path : string) (d : list (string * string)) : list (string * string) :=
  (path, EmptyString) :: filter (fun f => negb (String.eqb (fst f) path)) d.

Definition write_file (path data : string) (d : list (string * string)) : list (string * string) :=
  (path, data) :: filter (fun f => negb (String.eqb (fst f) path)) d.

(** ** The handler monad: state, and early exit by [Return] *)

Definition M (A : Type) : Type := World -> (A + Response) * World.

Definition ret {A} (a : A) : M A := fun w => (inl a, w).

Definition bind {A B} (m : M A) (f : A -> M B) : M B :=
  fun w => match m w with
           | (inl a, w') => f a w'
           | (inr x, w') => (inr x, w')
           end.

(** [return c.String(..)] and the like: the handler stops here. *)
Definition Return {A} (x : Response) : M A := fun w => (inr x, w).

(** [defer f()] followed by the rest of the function: [f] runs when the
    function leaves, whichever way. *)
Definition defer {A} (f : World -> World) (rest : M A) : M A :=
  fun w => let '(r, w') := rest w in (r, f w').

Definition run (m : M Response) (w : World) : Response * World :=
  match m w with
  | (inl x, w') => (x, w')
  | (inr x, w') => (x, w')
  end.

Declare Scope handler_scope.
Delimit Scope handler_scope with handler.
Notation "x <- m ;; k" := (bind m (fun x => k))
  (at level 61, m at next level, right associativity) : handler_scope.
Notation "m ;; k" := (bind m (fun _ => k))
  (at level 61, right associativity) : handler_scope.
Local Open Scope handler_scope.

(** [if err != nil { handle } ; rest], for a call that returns a value and
    an error, and for a call that returns only an error. *)
Definition try_ {A B} (m : M (error + A)) (h : error -> M B) (k : A -> M B) : M B :=
  bind m (fun r => match r with inl e => h e | inr a => k a end).

Definition check {B} (m : M (option error)) (h : error -> M B) (k : M B) : M B :=
  bind m (fun r => match r with Some e => h e | None => k end).

Notation "x <- m 'orelse' e => h ;; k" := (try_ m (fun e => h) (fun x => k))
  (at level 61, m at next level, e name, h at level 60, right associativity)
  : handler_scope.
Notation "'must' m 'orelse' e => h ;; k" := (check m (fun e => h) k)
  (at level 61, m at next level, e name, h at level 60, right associativity)
  : handler_scope.

(** ** The calls on the logger, the pool, a transaction and the file system *)

Definition log (l : LogEntry) : M unit := fun w => (inl tt, add_log l w).

Definition call (c : Call) : M unit := fun w => (inl tt, add_call c w).

(** The scheduled outcome of the call being made. *)
Definition fault : M (option error) :=
  fun w => match faults w with
           | [] => (inl None, w)
           | f :: fs => (inl f, set_faults fs w)
           end.

(** A call on the pool needs a connection first. *)
Definition dial : M (option error) :=
  fun w => if reachable w then fault w
           else (inl (Some (ErrOther "dial tcp: connect: connection refused")), w).

Definition scan_mismatch {A} : error + A :=
  inl (ErrOther "missing destination name").

(** [StructScan] and [Scan] into a destination: the columns of the row
    overwrite the fields they name. *)
Definition scanEvent (dest : Event) (r : Row) : error + Event :=
  match r with
  | RowEvent e => inr e
  | RowEventCols i t d dt => inr (Build_Event i (AccountID dest) t d dt)
  | _ => scan_mismatch
  end.

Definition scanPerson (dest : Person) (r : Row) : error + Person :=
  match r with RowPerson p => inr p | _ => scan_mismatch end.

Definition scanImage (dest : Image) (r : Row) : error + Image :=
  match r with RowImage i => inr i | _ => scan_mismatch end.

Definition scanInt (dest : Z) (r : Row) : error + Z :=
  match r with RowInt n => inr n | _ => scan_mismatch end.

Section Handlers.

Variable eng : Engine.

(** [db.Beginx()]: a transaction on a connection of the pool. *)
Definition Beginx : M (option error) :=
  call CallBeginx ;;
  f <- dial ;;
  match f with
  | Some e => ret (Some e)
  | None => fun w => (inl None, set_tx (Some (Build_Tx (tables w) 0)) w)
  end.

(** [tx.Exec(q, args...)]; the result value is never used. *)
Definition tx_Exec (q : string) (args : list SqlArg) : M (option error) :=
  call (CallTxExec q args) ;;
  f <- fault ;;
  match f with
  | Some e => ret (Some e)
  | None =>
      fun w =>
        match tx w with
        | None => (inl (Some (ErrOther "sql: transaction has already been committed or rolled back")), w)
        | Some t =>
            match sql_exec eng q args (tx_tables t) (autoinc w) (tx_last_id t) with
            | inl e => (inl (Some e), w)
            | inr (t', ai', last') =>
                (inl None, set_store (tables w) ai' (Some (Build_Tx t' last')) w)
            end
        end
  end.

(** The first row of a result, scanned into [dest]. *)
Definition first_row {A} (scan : A -> Row -> error + A) (dest : A)
    (r : error + list Row) : error + A :=
  match r with
  | inl e => inl e
  | inr [] => inl ErrNoRows
  | inr (row :: _) => scan dest row
  end.

(** [tx.Get(&dest, q, args...)]. *)
Definition tx_Get {A} (scan : A -> Row -> error + A) (dest : A)
    (q : string) (args : list SqlArg) : M (error + A) :=
  call (CallTxGet q args) ;;
  f <- fault ;;
  match f with
  | Some e => ret (inl e)
  | None =>
      fun w =>
        match tx w with
        | None => (inl (inl (ErrOther "sql: transaction has already been committed or rolled back")), w)
        | Some t =>
            (inl (first_row scan dest (sql_query eng q args (tx_tables t) (tx_last_id t))), w)
        end
  end.

(** [tx.Commit()]: the transaction is over whether or not it succeeds, and
    its rows are published only when it does. *)
Definition Commit : M (option error) :=
  call CallCommit ;;
  f <- fault ;;
  match f with
  | Some e => fun w => (inl (Some e), set_tx None w)
  | None =>
      fun w =>
        match tx w with
        | None => (inl (Some (ErrOther "sql: transaction has already been committed or rolled back")), w)
        | Some t => (inl None, set_store (tx_tables t) (autoinc w) None w)
        end
  end.

(** [tx.Rollback()], always deferred and its error never read: the rows of
    an open transaction are dropped; after [Commit] nothing is left to do. *)
Definition Rollback (w : World) : World := set_tx None (add_call CallRollback w).

(** [db.Get(&dest, q, args...)] on the pool, outside any transaction. *)
Definition db_Get {A} (scan : A -> Row -> error + A) (dest : A)
    (q : string) (args : list SqlArg) : M (error + A) :=
  call (CallGet q args) ;;
  f <- dial ;;
  match f with
  | Some e => ret (inl e)
  | None => fun w => (inl (first_row scan dest (sql_query eng q args (tables w) 0)), w)
  end.

(** [db.Queryx(q, args...)]. *)
Definition db_Queryx (q : string) (args : list SqlArg) : M (error + list Row) :=
  call (CallQueryx q args) ;;
  f <- dial ;;
  match f with
  | Some e => ret (inl e)
  | None => fun w => (inl (sql_query eng q args (tables w) 0), w)
  end.

(** [for rows.Next() { err := rows.StructScan(&dest); if err != nil { log;
    return 500 }; list = append(list, item) }]: [dest] is the one variable
    every row is scanned into, [item] what the body appends for it. A failure
    of [Next] ends the loop like the end of the rows does ([rows.Err] is
    never read). *)
Fixpoint for_rows {A B} (scan : A -> Row -> error + A) (item : A -> B)
    (rows : list Row) (dest : A) (acc : list B) : M (list B) :=
  match rows with
  | [] => ret acc
  | r :: rest =>
      f <- fault ;;
      match f with
      | Some _ => ret acc
      | None =>
          f <- fault ;;
          match (match f with Some e => inl e | None => scan dest r end) with
          | inl err =>
              log (Errorf "failed to purse query responce: %v" [LErr err]) ;;
              Return (Reply http.StatusInternalServerError NoContent)
          | inr d => for_rows scan item rest d (acc ++ [item d])
          end
      end
  end.

(** [src, err := file.Open()]. When it fails, [src] holds no file, and the
    error is returned next to it. *)
Definition Open (file : FileHeader) : M (option string * option error) :=
  call (CallOpen (Filename file)) ;;
  f <- fault ;;
  match f with
  | Some e => ret (None, Some e)
  | None => ret (Some (content file), None)
  end.

(** [os.Create(path)]. *)
Definition os_Create (path : string) : M (error + string) :=
  call (CallCreate path) ;;
  f <- fault ;;
  match f with
  | Some e => ret (inl e)
  | None => fun w => (inl (inr path), set_disk (create_file path (disk w)) w)
  end.

(** [io.Copy(dst, src)]; the byte count is never used. Reading from the
    [src] of a failed [Open] fails with [os.ErrInvalid]. What a failed copy
    leaves in the file is not followed: the file stays as it was created. *)
Definition io_Copy (dst : string) (src : option string) : M (option error) :=
  call (CallCopy dst) ;;
  f <- fault ;;
  match f, src with
  | Some e, _ => ret (Some e)
  | None, None => ret (Some (ErrOther "invalid argument"))
  | None, Some data => fun w => (inl None, set_disk (write_file dst data (disk w)) w)
  end.

(** [dst.Close()], deferred. *)
Definition Close (dst : string) (w : World) : World := add_call (CallClose dst) w.

(** [c.Bind(&dest)]: the destination afterwards, and the error. *)
Definition Bind {B} (c : Context B) (dest : B) : B * option error :=
  match body c with
  | Decodes a => (a, None)
  | Undecodable e => (dest, Some e)
  | Mismatch a e => (a, Some e)
  end.

(** *** Events *)

(** [GET /api/events] *)
Definition getEventList {B} (c : Context B) : World -> Response * World := run (
  let limit := QueryParam c "limit" in
  let limit := if String.eqb limit EmptyString then limit
               else Fmt.Sprintf0 (" limit " ++ limit) in
  let offset := QueryParam c "offset" in
  let offset := if String.eqb offset EmptyString then offset
                else Fmt.Sprintf0 (" offset " ++ offset) in
  rows <- db_Queryx ("select event_id, title, description, event_date from events"
                       ++ limit ++ offset) []
    orelse err =>
      (log (Errorf "failed to query: %v" [LErr err]) ;;
       Return (Reply http.StatusInternalServerError NoContent)) ;;
  eventlist <- for_rows scanEvent (fun event => event) rows zeroEvent [] ;;
  ret (Reply http.StatusOK (JSONEvents eventlist))).

(** [GET /api/events/{event_id}] *)
Definition getEvent {B} (c : Context B) : World -> Response * World := run (
  let eventID := Param c "event_id" in
  event <- db_Get scanEvent zeroEvent
             "SELECT * FROM `events` WHERE `event_id` = ?" [AStr eventID]
    orelse err =>
      (if is_ErrNoRows err then
         Return (Reply http.StatusNotFound (Text "not found: event"))
       else
         log (Errorf "db error: %v" [LErr err]) ;;
         Return (Reply http.StatusInternalServerError NoContent)) ;;
  rows <- db_Queryx
            "select * from persons where person_id in (select distinct(person_id) from event_person_tagging where event_id =?);"
            [AStr eventID]
    orelse err =>
      (log (Errorf "failed to query: %v" [LErr err]) ;;
       Return (Reply http.StatusInternalServerError NoContent)) ;;
  personlist <- for_rows scanPerson (fun person => person) rows zeroPerson [] ;;
  rows <- db_Queryx
            "select * from images where image_id in (select distinct(image_id) from event_image_tagging where event_id =?);"
            [AStr eventID]
    orelse err =>
      (log (Errorf "failed to query: %v" [LErr err]) ;;
       Return (Reply http.StatusInternalServerError NoContent)) ;;
  imageAndPathlist <-
    for_rows scanImage
      (fun image =>
         Build_ImageAndPath ("/images/" ++ Fmt.verb_d (ImageId image) ++ ".png") image)
      rows zeroImage [] ;;
  let res := Build_EventDatail event personlist imageAndPathlist in
  ret (Reply http.StatusOK (JSONEventDetail res))).

(** [c.Bind] returned [err]; [h] is the body of [if err != nil]. *)
Definition on_error (err : option error) (h : error -> M unit) : M unit :=
  match err with Some e => h e | None => ret tt end.

(** [for _, x := range l { body }]. *)
Fixpoint for_range {A} (l : list A) (body : A -> M unit) : M unit :=
  match l with
  | [] => ret tt
  | x :: rest => body x ;; for_range rest body
  end.

(** [POST /api/events]. The branch taken when [Bind] fails is empty. *)
Definition postEvent (c : Context NewEvent.t) : World -> Response * World := run (
  let '(event, err) := Bind c zeroNewEvent in
  on_error err (fun _ => ret tt) ;;
  let title := NewEvent.Title event in
  let description := NewEvent.Description event in
  let eventDate := NewEvent.EventDate event in
  log (Errorf "info: %v" [LNewEvent event]) ;;
  must Beginx orelse err =>
      (log (Errorf "db error: %v" [LErr err]) ;;
       Return (Reply http.StatusInternalServerError NoContent)) ;;
  defer Rollback (
    must tx_Exec ("INSERT INTO `events`" ++ TAB ++
                  "(`event_id`, `account_id`, `title`, `description`, `event_date`) VALUES (default,1, ?, ?, ?)")
           [AStr title; AStr description; AInt eventDate]
      orelse err =>
      (if is_duplicate_entry err then
         Return (Reply http.StatusConflict (Text "duplicated: event"))
       else
         log (Errorf "db error: %v" [LErr err]) ;;
         Return (Reply http.StatusInternalServerError NoContent)) ;;
    id <- tx_Get scanInt 0 "SELECT LAST_INSERT_ID()" []
      orelse err =>
      (log (Errorf "db error: %v" [LErr err]) ;;
       Return (Reply http.StatusInternalServerError NoContent)) ;;
    must Commit orelse err =>
      (log (Errorf "db error: %v" [LErr err]) ;;
       Return (Reply http.StatusInternalServerError NoContent)) ;;
    ret (Reply http.StatusCreated (JSONId "EventID" id)))).

(** [DELETE /api/events/{event_id}] *)
Definition deleteEvent {B} (c : Context B) : World -> Response * World := run (
  let eventID := Param c "event_id" in
  must Beginx orelse err =>
      (log (Errorf "db error: %v" [LErr err]) ;;
       Return (Reply http.StatusInternalServerError NoContent)) ;;
  defer Rollback (
    must tx_Exec "DELETE FROM `events` WHERE `event_id` = ?" [AStr eventID]
      orelse err =>
      (log (Errorf "db error: %v" [LErr err]) ;;
       Return (Reply http.StatusInternalServerError NoContent)) ;;
    must Commit orelse err =>
      (log (Errorf "db error: %v" [LErr err]) ;;
       Return (Reply http.StatusInternalServerError NoContent)) ;;
    ret (Reply http.StatusNoContent NoContent))).

(** *** Persons *)

(** [GET /api/persons] *)
Definition getPersonList {B} (c : Context B) : World -> Response * World := run (
  let limit := QueryParam c "limit" in
  let limit := if String.eqb limit EmptyString then limit
               else Fmt.Sprintf0 (" limit " ++ limit) in
  let offset := QueryParam c "offset" in
  let offset := if String.eqb offset EmptyString then offset
                else Fmt.Sprintf0 (" offset " ++ offset) in
  rows <- db_Queryx ("select * from persons" ++ limit ++ offset) []
    orelse err =>
      (log (Errorf "failed to query: %v" [LErr err]) ;;
       Return (Reply http.StatusInternalServerError NoContent)) ;;
  personlist <- for_rows scanPerson (fun person => person) rows zeroPerson [] ;;
  ret (Reply http.StatusOK (JSONPersons personlist))).

(** [GET /api/persons/{person_id}] *)
Definition getPerson {B} (c : Context B) : World -> Response * World := run (
  let personID := Param c "person_id" in
  person <- db_Get scanPerson zeroPerson
              "SELECT * FROM `persons` WHERE `person_id` = ?" [AStr personID]
    orelse err =>
      (if is_ErrNoRows err then
         Return (Reply http.StatusNotFound (Text "not found: person"))
       else
         log (Errorf "db error: %v" [LErr err]) ;;
         Return (Reply http.StatusInternalServerError NoContent)) ;;
  ret (Reply http.StatusOK (JSONPerson person))).

(** [POST /api/persons] *)
Definition postPerson (c : Context Person) : World -> Response * World := run (
  let '(person, err) := Bind c zeroPerson in
  on_error err (fun err => log (Errorf "Bind error: %v" [LErr err])) ;;
  let firstname := FirstName person in
  let lastname := LastName person in
  log (Errorf "info: [%v] [%v] [%v]" [LPerson person; LStr firstname; LStr lastname]) ;;
  must Beginx orelse err =>
      (log (Errorf "db error: %v" [LErr err]) ;;
       Return (Reply http.StatusInternalServerError NoContent)) ;;
  defer Rollback (
    must tx_Exec ("INSERT INTO `persons`" ++ TAB ++
                  "(`person_id`, `first_name`, `last_name`) VALUES (default, ?, ?)")
           [AStr firstname; AStr lastname]
      orelse err =>
      (if is_duplicate_entry err then
         Return (Reply http.StatusConflict (Text "duplicated: person"))
       else
         log (Errorf "db error: %v" [LErr err]) ;;
         Return (Reply http.StatusInternalServerError NoContent)) ;;
    id <- tx_Get scanInt 0 "SELECT LAST_INSERT_ID()" []
      orelse err =>
      (log (Errorf "db error: %v" [LErr err]) ;;
       Return (Reply http.StatusInternalServerError NoContent)) ;;
    must Commit orelse err =>
      (log (Errorf "db error: %v" [LErr err]) ;;
       Return (Reply http.StatusInternalServerError NoContent)) ;;
    ret (Reply http.StatusCreated (JSONId "PersonID" id)))).

(** [DELETE /api/persons/{person_id}] *)
Definition deletePerson {B} (c : Context B) : World -> Response * World := run (
  let personID := Param c "person_id" in
  must Beginx orelse err =>
      (log (Errorf "db error: %v" [LErr err]) ;;
       Return (Reply http.StatusInternalServerError NoContent)) ;;
  defer Rollback (
    must tx_Exec "DELETE FROM `persons` WHERE `person_id` = ?" [AStr personID]
      orelse err =>
      (log (Errorf "db error: %v" [LErr err]) ;;
       Return (Reply http.StatusInternalServerError NoContent)) ;;
    must Commit orelse err =>
      (log (Errorf "db error: %v" [LErr err]) ;;
       Return (Reply http.StatusInternalServerError NoContent)) ;;
    ret (Reply http.StatusNoContent NoContent))).

(** *** Images *)

(** [GET /api/images] *)
Definition getImageList {B} (c : Context B) : World -> Response * World := run (
  let limit := QueryParam c "limit" in
  let limit := if String.eqb limit EmptyString then limit
               else Fmt.Sprintf0 (" limit " ++ limit) in
  let offset := QueryParam c "offset" in
  let offset := if String.eqb offset EmptyString then offset
                else Fmt.Sprintf0 (" offset " ++ offset) in
  rows <- db_Queryx ("select * from images" ++ limit ++ offset) []
    orelse err =>
      (log (Errorf "failed to query: %v" [LErr err]) ;;
       Return (Reply http.StatusInternalServerError NoContent)) ;;
  imageAndPathList <- for_rows scanImage (fun image =>
       Build_ImageAndPath ("/images/" ++ Fmt.verb_d (ImageId image) ++ ".png") image) rows zeroImage [] ;;
  ret (Reply http.StatusOK (JSONImages imageAndPathList))).

(** [GET /api/images/{image_id}] *)
Definition getImage {B} (c : Context B) : World -> Response * World := run (
  let imageID := Param c "image_id" in
  image <- db_Get scanImage zeroImage
             "SELECT * FROM `images` WHERE `image_id` = ?" [AStr imageID]
    orelse err =>
      (if is_ErrNoRows err then
         Return (Reply http.StatusNotFound (Text "not found: image"))
       else
         log (Errorf "db error: %v" [LErr err]) ;;
         Return (Reply http.StatusInternalServerError NoContent)) ;;
  let imageAndPath :=
    Build_ImageAndPath ("/images/" ++ Fmt.verb_d (ImageId image) ++ ".png") image in
  ret (Reply http.StatusOK (JSONImage imageAndPath))).

(** [POST /api/images]. The error of [file.Open] is overwritten by the
    result of [Beginx] before anything reads it. *)
Definition uploadImage {B} (c : Context B) : World -> Response * World := run (
  file <- ret (FormFile c "file")
    orelse err => Return (Reply http.StatusBadRequest (Text "file missing")) ;;
  let image_name := Filename file in
  let mime_type := HeaderContentType file in
  let size := Size file in
  if 1000000 <? size then
    Return (Reply http.StatusBadRequest (Text "file exceed 1MByte"))
  else
  opened <- Open file ;;
  let src := fst opened in
  must Beginx orelse err =>
      (log (Errorf "db error: %v" [LErr err]) ;;
       Return (Reply http.StatusInternalServerError NoContent)) ;;
  defer Rollback (
    must tx_Exec "INSERT INTO `images` (`image_id`, `image_name`, `mime_type`) VALUES (default, ?, ?)"
           [AStr image_name; AStr mime_type]
      orelse err =>
      (if is_duplicate_entry err then
         Return (Reply http.StatusConflict (Text "duplicated: image"))
       else
         log (Errorf "db error: %v" [LErr err]) ;;
         Return (Reply http.StatusInternalServerError NoContent)) ;;
    image_id <- tx_Get scanInt 0 "SELECT LAST_INSERT_ID()" []
      orelse err =>
      (log (Errorf "db error: %v" [LErr err]) ;;
       Return (Reply http.StatusInternalServerError NoContent)) ;;
    let dst_file_name := imagesPath ++ ("/" ++ Fmt.verb_d image_id ++ ".png") in
    dst <- os_Create dst_file_name
      orelse err =>
      (log (Errorf "cant open file: %v" [LStr dst_file_name]) ;;
       Return (Reply http.StatusInternalServerError NoContent)) ;;
    defer (Close dst) (
      must io_Copy dst src orelse err =>
      (log (Errorf "cant save file: %v" [LStr dst_file_name]) ;;
       Return (Reply http.StatusInternalServerError NoContent)) ;;
      must Commit orelse err =>
      (log (Errorf "db error: %v" [LErr err]) ;;
       Return (Reply http.StatusInternalServerError NoContent)) ;;
      ret (Reply http.StatusCreated (JSONId "ImageID" image_id))))).

(** [DELETE /api/images/{image_id}] *)
Definition deleteImage {B} (c : Context B) : World -> Response * World := run (
  let imageID := Param c "image_id" in
  must Beginx orelse err =>
      (log (Errorf "db error: %v" [LErr err]) ;;
       Return (Reply http.StatusInternalServerError NoContent)) ;;
  defer Rollback (
    must tx_Exec "DELETE FROM `images` WHERE `image_id` = ?" [AStr imageID]
      orelse err =>
      (log (Errorf "db error: %v" [LErr err]) ;;
       Return (Reply http.StatusInternalServerError NoContent)) ;;
    must Commit orelse err =>
      (log (Errorf "db error: %v" [LErr err]) ;;
       Return (Reply http.StatusInternalServerError NoContent)) ;;
    ret (Reply http.StatusNoContent NoContent))).

(** *** Tagging *)

(** The loop of [bindEventPersons]: one row per person of the list, in
    order, until an [INSERT] fails. *)
Definition tag_persons (eventID : string) (personList : list Person) : M unit :=
  for_range personList (fun person =>
    let personID := PersonId person in
    must tx_Exec "INSERT INTO `event_person_tagging` (`event_id`, `person_id`) VALUES (?, ?)"
           [AStr eventID; AInt personID]
      orelse err =>
      (if is_duplicate_entry err then
         Return (Reply http.StatusConflict (Text "duplicated: bind"))
       else
         log (Errorf "db error: %v" [LErr err]) ;;
         Return (Reply http.StatusInternalServerError NoContent)) ;;
    ret tt).

(** [POST /api/events/{event_id}/persons] *)
Definition bindEventPersons (c : Context (list Person)) : World -> Response * World := run (
  let eventID := Param c "event_id" in
  log (Errorf "info: enevt_id %v" [LStr eventID]) ;;
  let '(personList, err) := Bind c [] in
  on_error err (fun err => log (Errorf "Bind error: %v" [LErr err])) ;;
  must Beginx orelse err =>
      (log (Errorf "db error: %v" [LErr err]) ;;
       Return (Reply http.StatusInternalServerError NoContent)) ;;
  defer Rollback (
    tag_persons eventID personList ;;
    must Commit orelse err =>
      (log (Errorf "db error: %v" [LErr err]) ;;
       Return (Reply http.StatusInternalServerError NoContent)) ;;
    ret (Reply http.StatusNoContent NoContent))).

(** The loop of [bindEventImages]. *)
Definition tag_images (eventID : string) (imageList : list Image) : M unit :=
  for_range imageList (fun image =>
    let imageID := ImageId image in
    log (Printf (" -> image " ++ Fmt.verb_d imageID ++ String (ascii_of_nat 10) EmptyString)) ;;
    must tx_Exec "INSERT INTO `event_image_tagging` (`event_id`, `image_id`) VALUES (?, ?)"
           [AStr eventID; AInt imageID]
      orelse err =>
      (if is_duplicate_entry err then
         Return (Reply http.StatusConflict (Text "duplicated: bind"))
       else
         log (Errorf "db error: %v" [LErr err]) ;;
         Return (Reply http.StatusInternalServerError NoContent)) ;;
    ret tt).

(** [POST /api/events/{event_id}/images] *)
Definition bindEventImages (c : Context (list Image)) : World -> Response * World := run (
  let eventID := Param c "event_id" in
  log (Errorf "info: enevt_id %v" [LStr eventID]) ;;
  let '(imageList, err) := Bind c [] in
  on_error err (fun err => log (Errorf "Bind error: %v" [LErr err])) ;;
  must Beginx orelse err =>
      (log (Errorf "db error: %v" [LErr err]) ;;
       Return (Reply http.StatusInternalServerError NoContent)) ;;
  defer Rollback (
    tag_images eventID imageList ;;
    must Commit orelse err =>
      (log (Errorf "db error: %v" [LErr err]) ;;
       Return (Reply http.StatusInternalServerError NoContent)) ;;
    ret (Reply http.StatusNoContent NoContent))).

End Handlers.

(** ** Startup *)

Record MySQLConnectionEnv := {
  Host : string;
  Port : string;
  User : string;
  DBName : string;
  Password : string
}.

(** The pooled handle; [MaxOpenConns = 0] means no limit. *)
Record Pool := { dsn_of : string; MaxOpenConns : Z }.

(** What the process meets when it starts: its environment variables; the
    verdict of [sqlx.Open] on a driver name and a data source name, which
    checks both and dials nothing (connections are made by the first call
    that needs one); whether the store accepts connections; and the error
    with which [e.Start] returns, if it ever does. *)
Record Process := {
  Getenv : string -> string;
  sqlx_Open : string -> string -> option error;
  store_up : bool;
  Start : string -> option error
}.

(** How [main] goes: the process writes [entry] with one of the logger's
    fatal calls and exits, [served] being the pool [e.Start] ran with when
    it was reached; or [e.Start] never returns and the server keeps running. *)
Inductive Outcome :=
| Exited (served : option Pool) (entry : LogEntry)
| Running (db : Pool).

Section Startup.

Variable p : Process.

Definition getEnv (key defaultValue : string) : string :=
  let val := Getenv p key in
  if negb (String.eqb val EmptyString) then val else defaultValue.

Definition NewMySQLConnectionEnv : MySQLConnectionEnv :=
  {| Host := getEnv "MYSQL_HOST" "127.0.0.1";
     Port := getEnv "MYSQL_PORT" "3306";
     User := getEnv "MYSQL_USER" "poc_webapp";
     DBName := getEnv "MYSQL_DBNAME" "poc_webapp";
     Password := getEnv "MYSQL_PASS" "poc_webapp" |}.

(** The data source name [ConnectDB] formats. *)
Definition dsn (mc : MySQLConnectionEnv) : string :=
  User mc ++ ":" ++ Password mc ++ "@tcp(" ++ Host mc ++ ":" ++ Port mc ++ ")/"
  ++ DBName mc ++ "?parseTime=true&loc=Asia%2FTokyo".

Definition ConnectDB (mc : MySQLConnectionEnv) : error + Pool :=
  match sqlx_Open p "mysql" (dsn mc) with
  | Some err => inl err
  | None => inr (Build_Pool (dsn mc) 0)
  end.

Definition SetMaxOpenConns (n : Z) (db : Pool) : Pool := Build_Pool (dsn_of db) n.

(** [main], from the preparation of the store handle on; the registration
    of the routes before it cannot fail, and the line [ConnectDB] prints is
    not followed. *)
Definition main : Outcome :=
  let mySQLConnectionData := NewMySQLConnectionEnv in
  match ConnectDB mySQLConnectionData with
  | inl err => Exited None (Fatalf "failed to connect db: %v" [LErr err])
  | inr db =>
      let db := SetMaxOpenConns 10 db in
      match Start p ":1323" with
      | Some err => Exited (Some db) (Fatal [LErr err])
      | None => Running db
      end
  end.

(** The world in which the started server handles a request. *)
Definition serving (t : Tables) (ai : AutoInc) (d : list (string * string)) : World :=
  Build_World (store_up p) t ai None d [] [] [].

End Startup.

(** ** Vocabulary of the statements *)

Fixpoint has_percent (s : string) : bool :=
  match s with
  | EmptyString => false
  | String c s' => Ascii.eqb c "%" || has_percent s'
  end.

(** What a list handler makes of the query parameter [v] for the keyword
    [kw] ([" limit "] or [" offset "]). *)
Definition clause (kw v : string) : string :=
  if String.eqb v EmptyString then v else Fmt.Sprintf0 (kw ++ v).

(** Query parameters of a request that carries [offset] and nothing else. *)
Definition only_offset (v : string) (key : string) : string :=
  if String.eqb key "offset" then v else EmptyString.

(** The first [n] scheduled outcomes are successes. *)
Definition quiet_for (n : nat) (fs : list (option error)) : Prop :=
  Forall (fun f => f = None) (firstn n fs).

Definition add_person_tags (rows : list (Z * Z)) (t : Tables) : Tables :=
  Build_Tables (events t) (persons t) (images t)
    (event_person_tagging t ++ rows) (event_image_tagging t).

Definition add_image_tags (rows : list (Z * Z)) (t : Tables) : Tables :=
  Build_Tables (events t) (persons t) (images t)
    (event_person_tagging t) (event_image_tagging t ++ rows).

Definition person_tag_call (eventID : string) (p : Person) : Call :=
  CallTxExec "INSERT INTO `event_person_tagging` (`event_id`, `person_id`) VALUES (?, ?)"
    [AStr eventID; AInt (PersonId p)].

Definition image_tag_call (eventID : string) (i : Image) : Call :=
  CallTxExec "INSERT INTO `event_image_tagging` (`event_id`, `image_id`) VALUES (?, ?)"
    [AStr eventID; AInt (ImageId i)].

(** The contract of a create handler [h] run in a world [w] that has no
    transaction open. [before] is the number of calls that can fail before
    [Beginx], [n] the number of calls from [Beginx] to [Commit], the
    [INSERT] being the second of them. When the calls before the first
    failing one succeed, the answer is 409 for a duplicate entry reported by
    the [INSERT] and 500 otherwise, the committed rows are those of [w] and
    no transaction is left open. When no call fails the answer is
    [created], the committed rows are [t'] and the calls made are [calls]. *)
Definition create_contract (h : World -> Response * World) (w : World)
    (before n : nat) (entity : string)
    (created : Response) (t' : Tables) (calls : list Call) : Prop :=
  tx w = None ->
  (reachable w = false ->
     fst (h w) = Reply 500 NoContent /\
     tables (snd (h w)) = tables w /\ tx (snd (h w)) = None) /\
  (reachable w = true ->
     forall pre k e fs,
       length pre = before -> (k < n)%nat ->
       faults w = (pre ++ repeat None k ++ Some e :: fs)%list ->
       fst (h w) =
         (if (k =? 1)%nat && is_duplicate_entry e
          then Reply 409 (Text ("duplicated: " ++ entity))
          else Reply 500 NoContent) /\
       tables (snd (h w)) = tables w /\ tx (snd (h w)) = None) /\
  (reachable w = true ->
     quiet_for (before + n) (faults w) ->
     fst (h w) = created /\
     tables (snd (h w)) = t' /\ tx (snd (h w)) = None /\
     trace (snd (h w)) = (trace w ++ calls)%list).

(** ** Concrete inputs *)

Module Sample.

(** An engine that reads decimal digits, keeps dates as they come and
    rejects any text appended to a list query. *)
Definition digits (s : string) : Z :=
  match NilZero.int_of_string s with
  | Some d => Z.of_int d
  | None => 0
  end.

Definition eng : Engine :=
  Build_Engine digits (fun d => d) (fun _ _ _ => inl (MySQLError 1064 "syntax error")).

Definition ada : Person := Build_Person 1 "Ada" "Lovelace".
Definition grace : Person := Build_Person 2 "Grace" "Hopper".
Definition party : Event := Build_Event 1 1 "party" "at noon" 0.
Definition picnic : Event := Build_Event 2 1 "picnic" "by the lake" 0.
Definition photo : Image := Build_Image 7 "photo.jpg" "image/jpeg".

Definition store : Tables :=
  Build_Tables [party; picnic] [ada; grace] [photo] [] [(1, 7)].

Definition world : World :=
  Build_World true store (Build_AutoInc 3 3 8) None [] [] [] [].

Definition with_faults (fs : list (option error)) : World := set_faults fs world.

Definition no_file (name : string) : error + FileHeader :=
  inl (ErrOther "http: no such file").

(** A request for the path parameter [id], with body [b]. *)
Definition request {B} (id : string) (b : Body B) : Context B :=
  Build_Context (fun _ => id) (fun _ => EmptyString) b no_file.

Definition bodiless (id : string) : Context unit := request id (Decodes tt).

Definition upload (size : Z) : Context unit :=
  Build_Context (fun _ => EmptyString) (fun _ => EmptyString) (Decodes tt)
    (fun _ => inr (Build_FileHeader "photo.jpg" "image/jpeg" size "bytes")).

Definition duplicate : error := MySQLError 1062 "Duplicate entry".

Definition process (up : bool) (start : option error) : Process :=
  Build_Process (fun _ => EmptyString) (fun _ _ => None) up (fun _ => start).

End Sample.

(** ** Vocabulary of the further statements *)

(** The content of the file at [path], if the directory holds one. *)
Fixpoint read_file (path : string) (d : list (string * string)) : option string :=
  match d with
  | [] => None
  | (p, data) :: rest => if String.eqb p path then Some data else read_file path rest
  end.

(** An image with the path the image handlers derive for it. *)
Definition with_path (image : Image) : ImageAndPath :=
  Build_ImageAndPath ("/images/" ++ Fmt.verb_d (ImageId image) ++ ".png") image.

(** An event as the list handler scans it: the four columns of its query,
    in a variable whose [AccountID] nothing ever sets. *)
Definition listed (e : Event) : Event :=
  Build_Event (EventID e) 0 (Title e) (Description e) (EventDate e).

(** The value [StructScan] leaves in the destination for a row. *)
Definition person_of (r : Row) : Person :=
  match r with RowPerson p => p | _ => zeroPerson end.

Definition image_of (r : Row) : Image :=
  match r with RowImage i => i | _ => zeroImage end.

Definition event_of (r : Row) : Event :=
  match r with
  | RowEvent e => e
  | RowEventCols i t d dt => Build_Event i 0 t d dt
  | _ => zeroEvent
  end.

(** A request without [limit] and [offset]. *)
Definition unpaged {B} (c : Context B) : Prop :=
  QueryParam c "limit" = EmptyString /\ QueryParam c "offset" = EmptyString.

(** The world [w'] holds the committed rows, the transaction and the
    files of [w]. *)
Definition same_store (w w' : World) : Prop :=
  tables w' = tables w /\ tx w' = tx w /\ disk w' = disk w.

(** The clause a list handler means to append for the keyword [kw] and the
    value [v]: nothing for an empty value, the keyword and the value as
    they are otherwise. *)
Definition raw_clause (kw v : string) : string :=
  if String.eqb v EmptyString then EmptyString else kw ++ v.

(** A world in which the party has both persons tagged. *)
Module Party.

Definition store : Tables :=
  Build_Tables [Sample.party] [Sample.ada; Sample.grace] [] [(1, 1); (1, 2)] [].

Definition world : World :=
  Build_World true store (Build_AutoInc 2 3 1) None [] [] [] [].

(** The world after the person 1 was deleted. *)
Definition after_delete : World :=
  snd (deletePerson Sample.eng (Sample.bodiless "1") world).

End Party.

(** * Properties *)

Arguments sql_exec : simpl never.
Arguments sql_query : simpl never.
Arguments Fmt.Sprintf0 : simpl never.
Arguments Fmt.verb_d : simpl never.
Arguments String.append : simpl never.

(** Runs the handler's calls on an explicit world. *)
Ltac exec :=
  cbv beta iota zeta delta
    [run try_ check bind ret Return defer log call dial fault Beginx tx_Exec
     tx_Get Commit Rollback db_Get db_Queryx Open os_Create io_Copy Close Bind
     on_error first_row set_store set_tx set_disk add_log add_call set_faults];
  cbn [reachable tables autoinc tx disk logs trace faults fst snd
       tx_tables tx_last_id body Param QueryParam FormFile].

(** Splits on the next scheduled outcome. *)
Ltac case_fault :=
  match goal with
  | |- context [match ?fs with nil => _ | cons _ _ => _ end] =>
      is_var fs; destruct fs as [|[?|] ?]; exec
  end.

(** ** [Sprintf] on text without a percent sign *)

Lemma is_byte_percent_plain s :
  has_percent s = false -> forall i, Fmt.is_byte "%" s i = false.
Proof.
  induction s as [|c s IH]; intros H i.
  - destruct i; reflexivity.
  - simpl in H. apply orb_false_iff in H. destruct H as [Hc Hs].
    destruct i as [|i].
    + unfold Fmt.is_byte, Fmt.at_. simpl. apply N.eqb_neq. intro E.
      apply (f_equal ascii_of_N) in E. rewrite ascii_N_embedding in E.
      subst c. discriminate.
    + apply (IH Hs i).
Qed.

Lemma skip_text_plain s :
  has_percent s = false ->
  forall fuel i, (i + fuel = String.length s)%nat ->
                 Fmt.skip_text fuel s i = String.length s.
Proof.
  intros H fuel. induction fuel as [|fuel IH]; intros i E; simpl.
  - lia.
  - rewrite (is_byte_percent_plain _ H).
    replace (i <? String.length s)%nat with true
      by (symmetry; apply Nat.ltb_lt; lia).
    simpl. apply IH. lia.
Qed.

Lemma substring_all s : String.substring 0 (String.length s) s = s.
Proof. induction s; simpl; [reflexivity | now f_equal]. Qed.

(** A format without a percent sign comes back as it is. *)
Lemma Sprintf0_plain s : has_percent s = false -> Fmt.Sprintf0 s = s.
Proof.
  intro H. unfold Fmt.Sprintf0. cbn [Fmt.doPrintf].
  rewrite Nat.sub_0_r, (skip_text_plain _ H) by lia.
  rewrite Nat.sub_0_r, substring_all, Nat.leb_refl. reflexivity.
Qed.

Lemma clause_plain kw v :
  has_percent (kw ++ v) = false -> v <> EmptyString -> clause kw v = kw ++ v.
Proof.
  intros H N. unfold clause. destruct (String.eqb_spec v EmptyString) as [E|_].
  - contradiction.
  - apply Sprintf0_plain, H.
Qed.

Section Properties.

Variable eng : Engine.

(** ** What the engine answers to the statements of the handlers *)

Lemma sql_exec_insert_event title description date t ai last :
  sql_exec eng
    ("INSERT INTO `events`" ++ TAB ++
     "(`event_id`, `account_id`, `title`, `description`, `event_date`) VALUES (default,1, ?, ?, ?)")
    [AStr title; AStr description; AInt date] t ai last =
  inr (Build_Tables
         (events t ++ [Build_Event (next_event ai) 1 title description
                         (sql_datetime eng date)])
         (persons t) (images t) (event_person_tagging t) (event_image_tagging t),
       Build_AutoInc (next_event ai + 1) (next_person ai) (next_image ai),
       next_event ai).
Proof. destruct t, ai. reflexivity. Qed.

Lemma sql_exec_insert_person first last_name t ai last :
  sql_exec eng
    ("INSERT INTO `persons`" ++ TAB ++
     "(`person_id`, `first_name`, `last_name`) VALUES (default, ?, ?)")
    [AStr first; AStr last_name] t ai last =
  inr (Build_Tables (events t)
         (persons t ++ [Build_Person (next_person ai) first last_name])
         (images t) (event_person_tagging t) (event_image_tagging t),
       Build_AutoInc (next_event ai) (next_person ai + 1) (next_image ai),
       next_person ai).
Proof. destruct t, ai. reflexivity. Qed.

Lemma sql_exec_insert_image name mime t ai last :
  sql_exec eng
    "INSERT INTO `images` (`image_id`, `image_name`, `mime_type`) VALUES (default, ?, ?)"
    [AStr name; AStr mime] t ai last =
  inr (Build_Tables (events t) (persons t)
         (images t ++ [Build_Image (next_image ai) name mime])
         (event_person_tagging t) (event_image_tagging t),
       Build_AutoInc (next_event ai) (next_person ai) (next_image ai + 1),
       next_image ai).
Proof. destruct t, ai. reflexivity. Qed.

Lemma sql_exec_insert_person_tag eventID id t ai last :
  sql_exec eng
    "INSERT INTO `event_person_tagging` (`event_id`, `person_id`) VALUES (?, ?)"
    [AStr eventID; AInt id] t ai last =
  inr (add_person_tags [(sql_int eng eventID, id)] t, ai, last).
Proof. destruct t, ai. reflexivity. Qed.

Lemma sql_exec_insert_image_tag eventID id t ai last :
  sql_exec eng
    "INSERT INTO `event_image_tagging` (`event_id`, `image_id`) VALUES (?, ?)"
    [AStr eventID; AInt id] t ai last =
  inr (add_image_tags [(sql_int eng eventID, id)] t, ai, last).
Proof. destruct t, ai. reflexivity. Qed.

Lemma sql_exec_delete_event id t ai last :
  sql_exec eng "DELETE FROM `events` WHERE `event_id` = ?" [AStr id] t ai last =
  inr (Build_Tables
         (filter (fun e => negb (EventID e =? sql_int eng id)) (events t))
         (persons t) (images t) (event_person_tagging t) (event_image_tagging t),
       ai, last).
Proof. destruct t, ai. reflexivity. Qed.

Lemma sql_exec_delete_person id t ai last :
  sql_exec eng "DELETE FROM `persons` WHERE `person_id` = ?" [AStr id] t ai last =
  inr (Build_Tables (events t)
         (filter (fun p => negb (PersonId p =? sql_int eng id)) (persons t))
         (images t) (event_person_tagging t) (event_image_tagging t),
       ai, last).
Proof. destruct t, ai. reflexivity. Qed.

Lemma sql_exec_delete_image id t ai last :
  sql_exec eng "DELETE FROM `images` WHERE `image_id` = ?" [AStr id] t ai last =
  inr (Build_Tables (events t) (persons t)
         (filter (fun i => negb (ImageId i =? sql_int eng id)) (images t))
         (event_person_tagging t) (event_image_tagging t),
       ai, last).
Proof. destruct t, ai. reflexivity. Qed.

Lemma sql_query_last_insert_id t last :
  sql_query eng "SELECT LAST_INSERT_ID()" [] t last = inr [RowInt last].
Proof. reflexivity. Qed.

Lemma sql_query_event_by_id id t last :
  sql_query eng "SELECT * FROM `events` WHERE `event_id` = ?" [AStr id] t last =
  inr (map RowEvent (filter (fun e => EventID e =? sql_int eng id) (events t))).
Proof. reflexivity. Qed.

Lemma sql_query_person_by_id id t last :
  sql_query eng "SELECT * FROM `persons` WHERE `person_id` = ?" [AStr id] t last =
  inr (map RowPerson (filter (fun p => PersonId p =? sql_int eng id) (persons t))).
Proof. reflexivity. Qed.

Lemma sql_query_image_by_id id t last :
  sql_query eng "SELECT * FROM `images` WHERE `image_id` = ?" [AStr id] t last =
  inr (map RowImage (filter (fun i => ImageId i =? sql_int eng id) (images t))).
Proof. reflexivity. Qed.

Lemma sql_query_persons_of_event id t last :
  sql_query eng
    "select * from persons where person_id in (select distinct(person_id) from event_person_tagging where event_id =?);"
    [AStr id] t last =
  inr (map RowPerson
         (filter (fun p => tagged (event_person_tagging t) (sql_int eng id) (PersonId p))
            (persons t))).
Proof. reflexivity. Qed.

Lemma sql_query_images_of_event id t last :
  sql_query eng
    "select * from images where image_id in (select distinct(image_id) from event_image_tagging where event_id =?);"
    [AStr id] t last =
  inr (map RowImage
         (filter (fun i => tagged (event_image_tagging t) (sql_int eng id) (ImageId i))
            (images t))).
Proof. reflexivity. Qed.

(** Replaces the engine's answer to the statement at hand. *)
Ltac engine_step :=
  match goal with
  | |- context [sql_exec eng _ [AStr ?a; AStr ?b; AInt ?d] ?t ?ai ?l] =>
      rewrite (sql_exec_insert_event a b d t ai l)
  | |- context [sql_exec eng _ [AStr ?a; AStr ?b] ?t ?ai ?l] =>
      first [ rewrite (sql_exec_insert_person a b t ai l)
            | rewrite (sql_exec_insert_image a b t ai l) ]
  | |- context [sql_exec eng _ [AStr ?a; AInt ?b] ?t ?ai ?l] =>
      first [ rewrite (sql_exec_insert_person_tag a b t ai l)
            | rewrite (sql_exec_insert_image_tag a b t ai l) ]
  | |- context [sql_exec eng _ [AStr ?a] ?t ?ai ?l] =>
      first [ rewrite (sql_exec_delete_event a t ai l)
            | rewrite (sql_exec_delete_person a t ai l)
            | rewrite (sql_exec_delete_image a t ai l) ]
  | |- context [sql_query eng _ [] ?t ?l] =>
      rewrite (sql_query_last_insert_id t l)
  | |- context [sql_query eng _ [AStr ?a] ?t ?l] =>
      first [ rewrite (sql_query_event_by_id a t l)
            | rewrite (sql_query_person_by_id a t l)
            | rewrite (sql_query_image_by_id a t l)
            | rewrite (sql_query_persons_of_event a t l)
            | rewrite (sql_query_images_of_event a t l) ]
  end.

(** Runs a handler to its end, splitting on every scheduled outcome. *)
Ltac steps :=
  repeat first
    [ progress exec
    | engine_step
    | progress cbn [scanInt scanEvent scanPerson scanImage]
    | case_fault
    | match goal with
      | |- context [is_duplicate_entry ?e] =>
          is_var e; destruct (is_duplicate_entry e) eqn:?
      | |- context [is_ErrNoRows ?e] =>
          is_var e; destruct (is_ErrNoRows e) eqn:?
      end ].

(** ** The row loop touches neither the store nor the call trace *)

Lemma for_rows_frame {A B} (scan : A -> Row -> error + A) (item : A -> B) rows :
  forall dest acc w,
    let w' := snd (for_rows scan item rows dest acc w) in
    trace w' = trace w /\ tables w' = tables w /\ tx w' = tx w /\ disk w' = disk w.
Proof.
  induction rows as [|r rows IH]; intros dest acc w; simpl.
  - auto.
  - unfold bind, fault. destruct w as [up t ai x d lg tr fs]; simpl.
    repeat (case_fault; simpl); auto;
      (destruct (scan dest r) as [err|d']; simpl; auto);
      match goal with |- context [for_rows _ _ _ _ _ ?w] =>
        apply (IH d' (acc ++ [item d'])%list w) end.
Qed.

(** Every item the loop returns was made by [item], or was there before. *)
Lemma for_rows_items {A B} (P : B -> Prop) (scan : A -> Row -> error + A)
    (item : A -> B) (HP : forall d, P (item d)) rows :
  forall dest acc w l w',
    for_rows scan item rows dest acc w = (inl l, w') ->
    Forall P acc -> Forall P l.
Proof.
  induction rows as [|r rows IH]; intros dest acc w l w' H Hacc; simpl in H.
  - inversion H. subst. exact Hacc.
  - unfold bind, fault in H. destruct w as [up t ai x d lg tr fs]; simpl in H.
    destruct fs as [|[e|] fs]; simpl in H.
    + destruct (scan dest r) as [err|d']; simpl in H; [discriminate|].
      eapply IH; [exact H|]. apply Forall_app. split; [exact Hacc|]. constructor; auto.
    + inversion H. subst. exact Hacc.
    + destruct fs as [|[e|] fs]; simpl in H; try discriminate;
        (destruct (scan dest r) as [err|d']; simpl in H; [discriminate|]);
        (eapply IH; [exact H|]; apply Forall_app; split; [exact Hacc|];
         constructor; auto).
Qed.

(** ** The text of a list query *)

Ltac list_query_trace h c w :=
  let q := fresh "q" in
  unfold h;
  fold (clause " limit " (QueryParam c "limit"));
  fold (clause " offset " (QueryParam c "offset"));
  set (q := String.append _ (String.append _ _));
  destruct w as [up t ai x d lg tr fs];
  destruct up; exec; [|reflexivity];
  repeat case_fault; try reflexivity;
  (destruct (sql_query eng q [] t 0) as [err|rows]; exec; try reflexivity);
  match goal with
  | |- context [for_rows ?s ?i ?r ?d0 ?a ?w0] =>
      let F := fresh "F" in
      pose proof (for_rows_frame s i r d0 a w0) as F;
      destruct (for_rows s i r d0 a w0) as [[? | ?] ?]; apply F
  end.

Lemma getEventList_query {B} (c : Context B) w :
  trace (snd (getEventList eng c w)) =
  (trace w ++
   [CallQueryx ("select event_id, title, description, event_date from events"
                ++ clause " limit " (QueryParam c "limit")
                ++ clause " offset " (QueryParam c "offset")) []])%list.
Proof. list_query_trace (@getEventList) c w. Qed.

Lemma getPersonList_query {B} (c : Context B) w :
  trace (snd (getPersonList eng c w)) =
  (trace w ++
   [CallQueryx ("select * from persons"
                ++ clause " limit " (QueryParam c "limit")
                ++ clause " offset " (QueryParam c "offset")) []])%list.
Proof. list_query_trace (@getPersonList) c w. Qed.

Lemma getImageList_query {B} (c : Context B) w :
  trace (snd (getImageList eng c w)) =
  (trace w ++
   [CallQueryx ("select * from images"
                ++ clause " limit " (QueryParam c "limit")
                ++ clause " offset " (QueryParam c "offset")) []])%list.
Proof. list_query_trace (@getImageList) c w. Qed.

Lemma has_percent_app a b : has_percent (a ++ b) = has_percent a || has_percent b.
Proof.
  induction a as [|c a IH]; [reflexivity|].
  change (String c a ++ b) with (String c (a ++ b)). simpl.
  rewrite IH. apply orb_assoc.
Qed.

(** For parameters without a percent sign, the offset clause is the keyword
    followed by the value, with or without a limit clause before it. *)
Lemma list_query_plain {B} (c : Context B) w :
  let limit := QueryParam c "limit" in
  let offset := QueryParam c "offset" in
  has_percent offset = false ->
  offset <> EmptyString ->
  exists limit_clause,
    (limit = EmptyString -> limit_clause = EmptyString) /\
    trace (snd (getEventList eng c w)) =
      (trace w ++ [CallQueryx ("select event_id, title, description, event_date from events"
                               ++ limit_clause ++ " offset " ++ offset) []])%list /\
    trace (snd (getPersonList eng c w)) =
      (trace w ++ [CallQueryx ("select * from persons"
                               ++ limit_clause ++ " offset " ++ offset) []])%list /\
    trace (snd (getImageList eng c w)) =
      (trace w ++ [CallQueryx ("select * from images"
                               ++ limit_clause ++ " offset " ++ offset) []])%list.
Proof.
  intros limit offset Ho Hne.
  exists (clause " limit " limit). split.
  - intros ->. reflexivity.
  - rewrite getEventList_query, getPersonList_query, getImageList_query.
    fold limit offset.
    rewrite (@clause_plain " offset " offset); [auto | | exact Hne].
    rewrite has_percent_app, Ho. reflexivity.
Qed.

(** C10 (the code departs from the claim). With [offset=%] and no limit
    the three list handlers do not append the text [ offset %]: the value is
    part of the format [Sprintf] is given, and the query ends in
    [ offset %!(NOVERB)]. *)
Theorem list_offset_percent_sign {B} (param : string -> string) (b : Body B)
    (form : string -> error + FileHeader) (w : World) :
  let c := Build_Context param (only_offset "%") b form in
  trace (snd (getEventList eng c w)) =
    (trace w ++ [CallQueryx "select event_id, title, description, event_date from events offset %!(NOVERB)" []])%list
  /\ trace (snd (getPersonList eng c w)) =
    (trace w ++ [CallQueryx "select * from persons offset %!(NOVERB)" []])%list
  /\ trace (snd (getImageList eng c w)) =
    (trace w ++ [CallQueryx "select * from images offset %!(NOVERB)" []])%list.
Proof.
  intro c.
  rewrite getEventList_query, getPersonList_query, getImageList_query.
  repeat split; reflexivity.
Qed.

(** ** Uploads *)

(** C2. An upload whose size exceeds 1,000,000 bytes is answered with 400
    and the body [file exceed 1MByte], and the world is left exactly as it
    was: no call on the store or on the file system was made, no
    transaction is open, no row and no file was added. *)
Theorem uploadImage_too_large {B} (c : Context B) (w : World) (file : FileHeader) :
  FormFile c "file" = inr file ->
  1000000 < Size file ->
  uploadImage eng c w = (Reply 400 (Text "file exceed 1MByte"), w).
Proof.
  intros Hfile Hsize. unfold uploadImage. exec. rewrite Hfile.
  apply Z.ltb_lt in Hsize. rewrite Hsize. reflexivity.
Qed.

(** C9. For an upload within the size limit, whatever [file.Open] returned
    ([o], a success or any error), the handler goes on to [Beginx] and, the
    transaction once begun, to the [INSERT] of the image row. *)
Theorem uploadImage_open_error_discarded {B} (c : Context B) (w : World)
    (file : FileHeader) (o : option error) (fs : list (option error)) :
  FormFile c "file" = inr file ->
  Size file <= 1000000 ->
  reachable w = true ->
  faults w = o :: fs ->
  hd None fs = None ->
  exists rest,
    trace (snd (uploadImage eng c w)) =
    (trace w ++
     CallOpen (Filename file) :: CallBeginx
     :: CallTxExec "INSERT INTO `images` (`image_id`, `image_name`, `mime_type`) VALUES (default, ?, ?)"
          [AStr (Filename file); AStr (HeaderContentType file)]
     :: rest)%list.
Proof.
  intros Hfile Hsize Hup Hfs Hbegin.
  destruct w as [up t ai x d lg tr fs0]. cbn in Hup, Hfs. subst up fs0.
  unfold uploadImage. exec. rewrite Hfile.
  replace (1000000 <? Size file) with false by (symmetry; apply Z.ltb_ge; exact Hsize).
  destruct o as [e|]; exec.
  all: destruct fs as [|b fs]; [|cbn in Hbegin; subst b]; steps.
  all: rewrite <- ?app_assoc; cbn [app]; eexists; reflexivity.
Qed.

(** ** Creating an entity *)

Lemma quiet_for_cons_inv n f fs :
  quiet_for (S n) (f :: fs) -> f = None /\ quiet_for n fs.
Proof. unfold quiet_for. cbn [firstn]. intro H. inversion H. auto. Qed.

(** Takes the next scheduled outcome from a schedule known to be quiet. *)
Ltac quiet_fault :=
  match goal with
  | H : quiet_for (S _) ?fs
    |- context [match ?fs with nil => _ | cons _ _ => _ end] =>
      destruct fs as [|? fs];
      [clear H | apply quiet_for_cons_inv in H; destruct H as [-> H]]; exec
  end.

Ltac quiet_steps :=
  repeat first
    [ progress exec
    | engine_step
    | progress cbn [scanInt scanEvent scanPerson scanImage]
    | quiet_fault ].

(** Splits on what [Bind] found in the body. *)
Ltac bound_body :=
  match goal with
  | |- context [body ?c] => destruct (body c); exec
  end.

Ltac finish := rewrite <- ?app_assoc; cbn [app]; repeat split; reflexivity.

Lemma postEvent_contract (c : Context NewEvent.t) (w : World) :
  let event := fst (Bind c zeroNewEvent) in
  let id := next_event (autoinc w) in
  let t := tables w in
  create_contract (postEvent eng c) w 0 4 "event"
    (Reply 201 (JSONId "EventID" id))
    (Build_Tables
       (events t ++ [Build_Event id 1 (NewEvent.Title event) (NewEvent.Description event)
                       (sql_datetime eng (NewEvent.EventDate event))])
       (persons t) (images t) (event_person_tagging t) (event_image_tagging t))
    [CallBeginx;
     CallTxExec ("INSERT INTO `events`" ++ TAB ++
                 "(`event_id`, `account_id`, `title`, `description`, `event_date`) VALUES (default,1, ?, ?, ?)")
       [AStr (NewEvent.Title event); AStr (NewEvent.Description event);
        AInt (NewEvent.EventDate event)];
     CallTxGet "SELECT LAST_INSERT_ID()" [];
     CallCommit; CallRollback].
Proof.
  intros event id t. subst event id t.
  destruct w as [up t ai x d lg tr fs]. unfold create_contract.
  cbn [reachable faults tables tx autoinc trace].
  intros ->. split; [|split].
  - intros ->. unfold postEvent. exec. bound_body; auto.
  - intros -> pre k e fs' Hpre Hk ->. destruct pre; [|discriminate]. cbn [app].
    unfold postEvent.
    destruct k as [|[|[|[|k]]]]; [| | | |lia]; cbn [repeat app Nat.eqb andb];
      exec; bound_body; steps; finish.
  - intros -> Hq. cbn [Nat.add] in Hq. unfold postEvent. exec.
    bound_body; quiet_steps; finish.
Qed.

Lemma postPerson_contract (c : Context Person) (w : World) :
  let person := fst (Bind c zeroPerson) in
  let id := next_person (autoinc w) in
  let t := tables w in
  create_contract (postPerson eng c) w 0 4 "person"
    (Reply 201 (JSONId "PersonID" id))
    (Build_Tables (events t)
       (persons t ++ [Build_Person id (FirstName person) (LastName person)])
       (images t) (event_person_tagging t) (event_image_tagging t))
    [CallBeginx;
     CallTxExec ("INSERT INTO `persons`" ++ TAB ++
                 "(`person_id`, `first_name`, `last_name`) VALUES (default, ?, ?)")
       [AStr (FirstName person); AStr (LastName person)];
     CallTxGet "SELECT LAST_INSERT_ID()" [];
     CallCommit; CallRollback].
Proof.
  intros person id t. subst person id t.
  destruct w as [up t ai x d lg tr fs]. unfold create_contract.
  cbn [reachable faults tables tx autoinc trace].
  intros ->. split; [|split].
  - intros ->. unfold postPerson. exec. bound_body; auto.
  - intros -> pre k e fs' Hpre Hk ->. destruct pre; [|discriminate]. cbn [app].
    unfold postPerson.
    destruct k as [|[|[|[|k]]]]; [| | | |lia]; cbn [repeat app Nat.eqb andb];
      exec; bound_body; steps; finish.
  - intros -> Hq. cbn [Nat.add] in Hq. unfold postPerson. exec.
    bound_body; quiet_steps; finish.
Qed.

Lemma uploadImage_contract {B} (c : Context B) (w : World) (file : FileHeader) :
  FormFile c "file" = inr file ->
  Size file <= 1000000 ->
  let id := next_image (autoinc w) in
  let t := tables w in
  let path := imagesPath ++ ("/" ++ Fmt.verb_d id ++ ".png") in
  create_contract (uploadImage eng c) w 1 6 "image"
    (Reply 201 (JSONId "ImageID" id))
    (Build_Tables (events t) (persons t)
       (images t ++ [Build_Image id (Filename file) (HeaderContentType file)])
       (event_person_tagging t) (event_image_tagging t))
    [CallOpen (Filename file); CallBeginx;
     CallTxExec "INSERT INTO `images` (`image_id`, `image_name`, `mime_type`) VALUES (default, ?, ?)"
       [AStr (Filename file); AStr (HeaderContentType file)];
     CallTxGet "SELECT LAST_INSERT_ID()" [];
     CallCreate path; CallCopy path; CallCommit; CallClose path; CallRollback].
Proof.
  intros Hfile Hsize id t path. subst id t path.
  destruct w as [up t ai x d lg tr fs]. unfold create_contract.
  cbn [reachable faults tables tx autoinc trace].
  assert (Hlt : (1000000 <? Size file) = false) by (apply Z.ltb_ge; exact Hsize).
  intros ->. split; [|split].
  - intros ->. unfold uploadImage. exec. rewrite Hfile, Hlt. steps; auto.
  - intros -> pre k e fs' Hpre Hk ->.
    destruct pre as [|o [|? ?]]; try discriminate. cbn [app].
    unfold uploadImage. exec. rewrite Hfile, Hlt.
    destruct k as [|[|[|[|[|[|k]]]]]]; [| | | | | |lia];
      cbn [repeat app Nat.eqb andb]; destruct o; steps; finish.
  - intros -> Hq. cbn [Nat.add] in Hq. unfold uploadImage. exec.
    rewrite Hfile, Hlt. quiet_steps; finish.
Qed.

(** C4. Each create handler (event, person, image) runs in one transaction
    [Beginx; INSERT; SELECT LAST_INSERT_ID(); Commit] and answers 201 with
    the id the engine generated, the new row being committed; a duplicate
    entry reported by the [INSERT] gives 409, any other failing call gives
    500, and after any failure the committed rows are unchanged and no
    transaction is left open. *)
Theorem create_is_transactional
    (ce : Context NewEvent.t) (cp : Context Person) {B} (ci : Context B)
    (file : FileHeader) (w : World) :
  let event := fst (Bind ce zeroNewEvent) in
  let person := fst (Bind cp zeroPerson) in
  let t := tables w in
  let path := imagesPath ++ ("/" ++ Fmt.verb_d (next_image (autoinc w)) ++ ".png") in
  create_contract (postEvent eng ce) w 0 4 "event"
    (Reply 201 (JSONId "EventID" (next_event (autoinc w))))
    (Build_Tables
       (events t ++ [Build_Event (next_event (autoinc w)) 1 (NewEvent.Title event)
                       (NewEvent.Description event)
                       (sql_datetime eng (NewEvent.EventDate event))])
       (persons t) (images t) (event_person_tagging t) (event_image_tagging t))
    [CallBeginx;
     CallTxExec ("INSERT INTO `events`" ++ TAB ++
                 "(`event_id`, `account_id`, `title`, `description`, `event_date`) VALUES (default,1, ?, ?, ?)")
       [AStr (NewEvent.Title event); AStr (NewEvent.Description event);
        AInt (NewEvent.EventDate event)];
     CallTxGet "SELECT LAST_INSERT_ID()" [];
     CallCommit; CallRollback]
  /\
  create_contract (postPerson eng cp) w 0 4 "person"
    (Reply 201 (JSONId "PersonID" (next_person (autoinc w))))
    (Build_Tables (events t)
       (persons t ++ [Build_Person (next_person (autoinc w)) (FirstName person)
                        (LastName person)])
       (images t) (event_person_tagging t) (event_image_tagging t))
    [CallBeginx;
     CallTxExec ("INSERT INTO `persons`" ++ TAB ++
                 "(`person_id`, `first_name`, `last_name`) VALUES (default, ?, ?)")
       [AStr (FirstName person); AStr (LastName person)];
     CallTxGet "SELECT LAST_INSERT_ID()" [];
     CallCommit; CallRollback]
  /\
  (FormFile ci "file" = inr file -> Size file <= 1000000 ->
   create_contract (uploadImage eng ci) w 1 6 "image"
     (Reply 201 (JSONId "ImageID" (next_image (autoinc w))))
     (Build_Tables (events t) (persons t)
        (images t ++ [Build_Image (next_image (autoinc w)) (Filename file)
                        (HeaderContentType file)])
        (event_person_tagging t) (event_image_tagging t))
     [CallOpen (Filename file); CallBeginx;
      CallTxExec "INSERT INTO `images` (`image_id`, `image_name`, `mime_type`) VALUES (default, ?, ?)"
        [AStr (Filename file); AStr (HeaderContentType file)];
      CallTxGet "SELECT LAST_INSERT_ID()" [];
      CallCreate path; CallCopy path; CallCommit; CallClose path; CallRollback]).
Proof.
  intros event person t path. split; [|split].
  - apply postEvent_contract.
  - apply postPerson_contract.
  - intros Hfile Hsize. apply uploadImage_contract; assumption.
Qed.

(** ** Tagging *)

Lemma quiet_for_nil n : quiet_for n [].
Proof. unfold quiet_for. destruct n; constructor. Qed.

Lemma quiet_for_split n m fs :
  quiet_for (n + m) fs -> quiet_for n fs /\ quiet_for m (skipn n fs).
Proof.
  revert fs. induction n as [|n IH]; intros fs H.
  - split; [constructor | exact H].
  - destruct fs as [|f fs].
    + split; apply quiet_for_nil.
    + cbn [Nat.add] in H. apply quiet_for_cons_inv in H. destruct H as [-> H].
      destruct (IH _ H) as [H1 H2]. split; [|exact H2].
      unfold quiet_for. cbn [firstn]. constructor; [reflexivity | exact H1].
Qed.

Lemma add_person_tags_cons r rows t :
  add_person_tags rows (add_person_tags [r] t) = add_person_tags (r :: rows) t.
Proof. unfold add_person_tags. cbn. now rewrite <- app_assoc. Qed.

Lemma add_person_tags_nil t : add_person_tags [] t = t.
Proof. destruct t. unfold add_person_tags. cbn. now rewrite app_nil_r. Qed.

Lemma add_image_tags_cons r rows t :
  add_image_tags rows (add_image_tags [r] t) = add_image_tags (r :: rows) t.
Proof. unfold add_image_tags. cbn. now rewrite <- app_assoc. Qed.

Lemma add_image_tags_nil t : add_image_tags [] t = t.
Proof. destruct t. unfold add_image_tags. cbn. now rewrite app_nil_r. Qed.

(** The loop on a quiet schedule: every row is inserted, in order. *)
Lemma tag_persons_quiet eventID l :
  forall up t ai tbl last d lg tr fs,
    quiet_for (length l) fs ->
    tag_persons eng eventID l (Build_World up t ai (Some (Build_Tx tbl last)) d lg tr fs) =
    (inl tt,
     Build_World up t ai
       (Some (Build_Tx
                (add_person_tags (map (fun p => (sql_int eng eventID, PersonId p)) l) tbl)
                last))
       d lg (tr ++ map (person_tag_call eventID) l) (skipn (length l) fs)).
Proof.
  induction l as [|p l IH]; intros up t ai tbl last d lg tr fs Hq.
  - cbn. now rewrite add_person_tags_nil, app_nil_r.
  - unfold tag_persons. cbn [for_range length map skipn].
    change (for_range l _) with (tag_persons eng eventID l).
    cbn [length] in Hq. quiet_steps.
    + rewrite IH by apply quiet_for_nil. rewrite add_person_tags_cons, <- app_assoc.
      destruct l; reflexivity.
    + rewrite IH by exact Hq. rewrite add_person_tags_cons, <- app_assoc. reflexivity.
Qed.

(** The loop when the [INSERT] for [x] is the first to fail: the rows
    before it are in the transaction, nothing is attempted after it. *)
Lemma tag_persons_fails eventID pre x post e :
  forall up t ai tbl last d lg tr fs,
    exists lg',
      tag_persons eng eventID (pre ++ x :: post)
        (Build_World up t ai (Some (Build_Tx tbl last)) d lg tr
           (repeat None (length pre) ++ Some e :: fs)) =
      (inr (if is_duplicate_entry e
            then Reply 409 (Text "duplicated: bind")
            else Reply 500 NoContent),
       Build_World up t ai
         (Some (Build_Tx
                  (add_person_tags (map (fun p => (sql_int eng eventID, PersonId p)) pre) tbl)
                  last))
         d lg' (tr ++ map (person_tag_call eventID) (pre ++ [x])) fs).
Proof.
  induction pre as [|p pre IH]; intros up t ai tbl last d lg tr fs.
  - unfold tag_persons. cbn [app for_range length repeat map]. steps.
    all: rewrite add_person_tags_nil; eexists; reflexivity.
  - unfold tag_persons. cbn [app for_range length repeat map].
    change (for_range (pre ++ x :: post)%list _)
      with (tag_persons eng eventID (pre ++ x :: post)).
    exec. engine_step. exec.
    match goal with |- context [tag_persons eng eventID _ ?w] =>
      match w with Build_World ?up ?t ?ai (Some (Build_Tx ?tbl ?last)) ?d ?lg ?tr _ =>
        destruct (IH up t ai tbl last d lg tr fs) as [lg' ->] end end.
    exists lg'. rewrite add_person_tags_cons, <- app_assoc. reflexivity.
Qed.

Lemma tag_images_quiet eventID l :
  forall up t ai tbl last d lg tr fs,
    quiet_for (length l) fs ->
    tag_images eng eventID l (Build_World up t ai (Some (Build_Tx tbl last)) d lg tr fs) =
    (inl tt,
     Build_World up t ai
       (Some (Build_Tx
                (add_image_tags (map (fun i => (sql_int eng eventID, ImageId i)) l) tbl)
                last))
       d
       (lg ++ map (fun i => Printf (" -> image " ++ Fmt.verb_d (ImageId i)
                                     ++ String (ascii_of_nat 10) EmptyString)) l)
       (tr ++ map (image_tag_call eventID) l) (skipn (length l) fs)).
Proof.
  induction l as [|p l IH]; intros up t ai tbl last d lg tr fs Hq.
  - cbn. now rewrite add_image_tags_nil, !app_nil_r.
  - unfold tag_images. cbn [for_range length map skipn].
    change (for_range l _) with (tag_images eng eventID l).
    cbn [length] in Hq. quiet_steps.
    + rewrite IH by apply quiet_for_nil. rewrite add_image_tags_cons, <- !app_assoc.
      destruct l; reflexivity.
    + rewrite IH by exact Hq. rewrite add_image_tags_cons, <- !app_assoc. reflexivity.
Qed.

Lemma tag_images_fails eventID pre x post e :
  forall up t ai tbl last d lg tr fs,
    exists lg',
      tag_images eng eventID (pre ++ x :: post)
        (Build_World up t ai (Some (Build_Tx tbl last)) d lg tr
           (repeat None (length pre) ++ Some e :: fs)) =
      (inr (if is_duplicate_entry e
            then Reply 409 (Text "duplicated: bind")
            else Reply 500 NoContent),
       Build_World up t ai
         (Some (Build_Tx
                  (add_image_tags (map (fun i => (sql_int eng eventID, ImageId i)) pre) tbl)
                  last))
         d lg' (tr ++ map (image_tag_call eventID) (pre ++ [x])) fs).
Proof.
  induction pre as [|p pre IH]; intros up t ai tbl last d lg tr fs.
  - unfold tag_images. cbn [app for_range length repeat map]. steps.
    all: rewrite add_image_tags_nil; eexists; reflexivity.
  - unfold tag_images. cbn [app for_range length repeat map].
    change (for_range (pre ++ x :: post)%list _)
      with (tag_images eng eventID (pre ++ x :: post)).
    exec. engine_step. exec.
    match goal with |- context [tag_images eng eventID _ ?w] =>
      match w with Build_World ?up ?t ?ai (Some (Build_Tx ?tbl ?last)) ?d ?lg ?tr _ =>
        destruct (IH up t ai tbl last d lg tr fs) as [lg' ->] end end.
    exists lg'. rewrite add_image_tags_cons, <- app_assoc. reflexivity.
Qed.

(** The schedule left for [Commit] after a quiet loop. *)
Lemma quiet_commit n fs :
  quiet_for (n + 1) fs -> skipn n fs = [] \/ exists fs', skipn n fs = None :: fs'.
Proof.
  intro H. apply quiet_for_split in H. destruct H as [_ H].
  destruct (skipn n fs) as [|f fs']; [now left | right].
  apply quiet_for_cons_inv in H. destruct H as [-> _]. now exists fs'.
Qed.

Lemma bindEventPersons_all (c : Context (list Person)) (w : World) l :
  body c = Decodes l -> reachable w = true ->
  quiet_for (1 + length l + 1) (faults w) ->
  let w' := snd (bindEventPersons eng c w) in
  fst (bindEventPersons eng c w) = Reply 204 NoContent /\
  tables w' =
    add_person_tags (map (fun p => (sql_int eng (Param c "event_id"), PersonId p)) l)
      (tables w) /\
  tx w' = None /\
  trace w' =
    (trace w ++ CallBeginx :: map (person_tag_call (Param c "event_id")) l
     ++ [CallCommit; CallRollback])%list.
Proof.
  destruct w as [up t ai x d lg tr fs]. cbn [reachable faults tables trace].
  intros Hbody -> Hq. cbn [Nat.add] in Hq.
  unfold bindEventPersons. exec. rewrite Hbody. exec.
  quiet_fault; exec.
  - rewrite tag_persons_quiet by apply quiet_for_nil. exec.
    destruct (length l); cbn [skipn]; exec; finish.
  - rewrite tag_persons_quiet by (apply (quiet_for_split _ _ Hq)). exec.
    destruct (quiet_commit _ Hq) as [-> | [fs' ->]]; exec; finish.
Qed.

Lemma bindEventPersons_none (c : Context (list Person)) (w : World) pre x post e fs :
  body c = Decodes (pre ++ x :: post)%list -> reachable w = true ->
  faults w = (None :: repeat None (length pre) ++ Some e :: fs)%list ->
  let w' := snd (bindEventPersons eng c w) in
  fst (bindEventPersons eng c w) =
    (if is_duplicate_entry e then Reply 409 (Text "duplicated: bind")
     else Reply 500 NoContent) /\
  tables w' = tables w /\
  tx w' = None /\
  trace w' =
    (trace w ++ CallBeginx :: map (person_tag_call (Param c "event_id")) (pre ++ [x])
     ++ [CallRollback])%list.
Proof.
  destruct w as [up t ai x0 d lg tr fs0]. cbn [reachable faults tables trace].
  intros Hbody -> ->.
  unfold bindEventPersons. exec. rewrite Hbody. exec.
  match goal with |- context [tag_persons eng ?ev _ ?w] =>
    match w with Build_World ?up ?t ?ai (Some (Build_Tx ?tbl ?last)) ?d ?lg ?tr _ =>
      destruct (tag_persons_fails ev pre x post e up t ai tbl last d lg tr fs) as [lg' ->]
    end end.
  exec. finish.
Qed.
Lemma bindEventImages_all (c : Context (list Image)) (w : World) l :
  body c = Decodes l -> reachable w = true ->
  quiet_for (1 + length l + 1) (faults w) ->
  let w' := snd (bindEventImages eng c w) in
  fst (bindEventImages eng c w) = Reply 204 NoContent /\
  tables w' =
    add_image_tags (map (fun i => (sql_int eng (Param c "event_id"), ImageId i)) l)
      (tables w) /\
  tx w' = None /\
  trace w' =
    (trace w ++ CallBeginx :: map (image_tag_call (Param c "event_id")) l
     ++ [CallCommit; CallRollback])%list.
Proof.
  destruct w as [up t ai x d lg tr fs]. cbn [reachable faults tables trace].
  intros Hbody -> Hq. cbn [Nat.add] in Hq.
  unfold bindEventImages. exec. rewrite Hbody. exec.
  quiet_fault; exec.
  - rewrite tag_images_quiet by apply quiet_for_nil. exec.
    destruct (length l); cbn [skipn]; exec; finish.
  - rewrite tag_images_quiet by (apply (quiet_for_split _ _ Hq)). exec.
    destruct (quiet_commit _ Hq) as [-> | [fs' ->]]; exec; finish.
Qed.

Lemma bindEventImages_none (c : Context (list Image)) (w : World) pre x post e fs :
  body c = Decodes (pre ++ x :: post)%list -> reachable w = true ->
  faults w = (None :: repeat None (length pre) ++ Some e :: fs)%list ->
  let w' := snd (bindEventImages eng c w) in
  fst (bindEventImages eng c w) =
    (if is_duplicate_entry e then Reply 409 (Text "duplicated: bind")
     else Reply 500 NoContent) /\
  tables w' = tables w /\
  tx w' = None /\
  trace w' =
    (trace w ++ CallBeginx :: map (image_tag_call (Param c "event_id")) (pre ++ [x])
     ++ [CallRollback])%list.
Proof.
  destruct w as [up t ai x0 d lg tr fs0]. cbn [reachable faults tables trace].
  intros Hbody -> ->.
  unfold bindEventImages. exec. rewrite Hbody. exec.
  match goal with |- context [tag_images eng ?ev _ ?w] =>
    match w with Build_World ?up ?t ?ai (Some (Build_Tx ?tbl ?last)) ?d ?lg ?tr _ =>
      destruct (tag_images_fails ev pre x post e up t ai tbl last d lg tr fs) as [lg' ->]
    end end.
  exec. finish.
Qed.

(** C1. [bindEventPersons] and [bindEventImages] open one transaction and
    insert one association row per id of the list, in the order of the list.
    When no call fails the rows are committed, in that order, and the answer
    is 204. When the [INSERT] for some id is the first call to fail, no
    [INSERT] is attempted for the ids after it, the transaction is rolled
    back so that the committed rows are those from before the call, and the
    answer is 409 if the failure is a duplicate entry and 500 otherwise. *)
Theorem bind_is_all_or_nothing :
  (forall (c : Context (list Person)) (w : World) (l : list Person),
      body c = Decodes l -> reachable w = true ->
      quiet_for (1 + length l + 1) (faults w) ->
      fst (bindEventPersons eng c w) = Reply 204 NoContent /\
      tables (snd (bindEventPersons eng c w)) =
        add_person_tags
          (map (fun p => (sql_int eng (Param c "event_id"), PersonId p)) l) (tables w) /\
      tx (snd (bindEventPersons eng c w)) = None /\
      trace (snd (bindEventPersons eng c w)) =
        (trace w ++ CallBeginx :: map (person_tag_call (Param c "event_id")) l
         ++ [CallCommit; CallRollback])%list)
  /\
  (forall (c : Context (list Person)) (w : World) pre x post e fs,
      body c = Decodes (pre ++ x :: post)%list -> reachable w = true ->
      faults w = (None :: repeat None (length pre) ++ Some e :: fs)%list ->
      fst (bindEventPersons eng c w) =
        (if is_duplicate_entry e then Reply 409 (Text "duplicated: bind")
         else Reply 500 NoContent) /\
      tables (snd (bindEventPersons eng c w)) = tables w /\
      tx (snd (bindEventPersons eng c w)) = None /\
      trace (snd (bindEventPersons eng c w)) =
        (trace w ++ CallBeginx
         :: map (person_tag_call (Param c "event_id")) (pre ++ [x])
         ++ [CallRollback])%list)
  /\
  (forall (c : Context (list Image)) (w : World) (l : list Image),
      body c = Decodes l -> reachable w = true ->
      quiet_for (1 + length l + 1) (faults w) ->
      fst (bindEventImages eng c w) = Reply 204 NoContent /\
      tables (snd (bindEventImages eng c w)) =
        add_image_tags
          (map (fun i => (sql_int eng (Param c "event_id"), ImageId i)) l) (tables w) /\
      tx (snd (bindEventImages eng c w)) = None /\
      trace (snd (bindEventImages eng c w)) =
        (trace w ++ CallBeginx :: map (image_tag_call (Param c "event_id")) l
         ++ [CallCommit; CallRollback])%list)
  /\
  (forall (c : Context (list Image)) (w : World) pre x post e fs,
      body c = Decodes (pre ++ x :: post)%list -> reachable w = true ->
      faults w = (None :: repeat None (length pre) ++ Some e :: fs)%list ->
      fst (bindEventImages eng c w) =
        (if is_duplicate_entry e then Reply 409 (Text "duplicated: bind")
         else Reply 500 NoContent) /\
      tables (snd (bindEventImages eng c w)) = tables w /\
      tx (snd (bindEventImages eng c w)) = None /\
      trace (snd (bindEventImages eng c w)) =
        (trace w ++ CallBeginx
         :: map (image_tag_call (Param c "event_id")) (pre ++ [x])
         ++ [CallRollback])%list).
Proof.
  split; [|split; [|split]]; intros.
  - now apply bindEventPersons_all.
  - eapply bindEventPersons_none; eassumption.
  - now apply bindEventImages_all.
  - eapply bindEventImages_none; eassumption.
Qed.

(** ** Reading an entity *)

Lemma filter_none {A} (f : A -> bool) (l : list A) :
  (forall a, In a l -> f a = false) -> filter f l = [].
Proof.
  induction l as [|a l IH]; intro H; [reflexivity|]. cbn [filter].
  rewrite (H a (or_introl eq_refl)). apply IH. intros b Hb. apply H. now right.
Qed.

Lemma filter_deleted {A} (f : A -> bool) (l : list A) :
  filter f (filter (fun a => negb (f a)) l) = [].
Proof.
  apply filter_none. intros a Ha. apply filter_In in Ha.
  destruct Ha as [_ Ha]. now destruct (f a).
Qed.

Lemma filter_some {A} (f : A -> bool) (l : list A) a :
  In a l -> f a = true ->
  exists b rest, filter f l = b :: rest /\ In b l /\ f b = true.
Proof.
  intros Hin Hf.
  assert (Ha : In a (filter f l)) by (apply filter_In; auto).
  destruct (filter f l) as [|b rest] eqn:E; [contradiction|].
  exists b, rest. split; [reflexivity|].
  apply filter_In. rewrite E. now left.
Qed.

Lemma untagged tags key :
  (forall r, In r tags -> fst r <> key) -> forall id, tagged tags key id = false.
Proof.
  intros H id. unfold tagged. 
  destruct (existsb _ tags) eqn:E; [|reflexivity].
  apply existsb_exists in E. destruct E as [r [Hr E]].
  apply andb_true_iff in E. destruct E as [E _]. apply Z.eqb_eq in E.
  now apply H in Hr.
Qed.

(** C3. When the store answers, [getEvent] for an id that matches an event
    row and no tagging row returns 200 with that event and two empty
    sequences, and for an id that matches no event row it returns 404. *)
Theorem getEvent_without_tags {B} (c : Context B) (w : World) :
  let key := sql_int eng (Param c "event_id") in
  reachable w = true ->
  quiet_for 3 (faults w) ->
  ((exists e, In e (events (tables w)) /\ EventID e = key) ->
   (forall r, In r (event_person_tagging (tables w)) -> fst r <> key) ->
   (forall r, In r (event_image_tagging (tables w)) -> fst r <> key) ->
   exists e, In e (events (tables w)) /\ EventID e = key /\
     fst (getEvent eng c w) = Reply 200 (JSONEventDetail (Build_EventDatail e [] [])))
  /\
  ((forall e, In e (events (tables w)) -> EventID e <> key) ->
   fst (getEvent eng c w) = Reply 404 (Text "not found: event")).
Proof.
  intros key. destruct w as [up t ai x d lg tr fs]. cbn [reachable faults tables].
  intros -> Hq. split.
  - intros [e [Hin Hid]] Hp Hi.
    destruct (filter_some (fun e => EventID e =? key) _ e Hin) as [b [rest [Hf [Hb Hk]]]].
    { now apply Z.eqb_eq. }
    exists b. split; [exact Hb|]. split; [now apply Z.eqb_eq|].
    unfold getEvent. quiet_steps; fold key; rewrite Hf; cbn [map]; quiet_steps.
    all: repeat (rewrite filter_none by (intros; apply untagged; assumption); cbn [map for_rows]; quiet_steps).
    all: reflexivity.
  - intro Hnone. unfold getEvent.
    quiet_steps; fold key; rewrite filter_none by (intros a Ha; apply Z.eqb_neq; auto);
      reflexivity.
Qed.

Lemma deleteEvent_then_get {B} (c : Context B) (w : World) :
  (reachable w = true -> quiet_for 3 (faults w) ->
   fst (deleteEvent eng c w) = Reply 204 NoContent)
  /\
  (event_person_tagging (tables (snd (deleteEvent eng c w)))
     = event_person_tagging (tables w) /\
   event_image_tagging (tables (snd (deleteEvent eng c w)))
     = event_image_tagging (tables w))
  /\
  (fst (deleteEvent eng c w) = Reply 204 NoContent ->
   forall {B'} (c' : Context B') (w2 : World),
     Param c' "event_id" = Param c "event_id" ->
     tables w2 = tables (snd (deleteEvent eng c w)) ->
     reachable w2 = true -> hd None (faults w2) = None ->
     fst (getEvent eng c' w2) = Reply 404 (Text "not found: event")).
Proof.
  destruct w as [up t ai x d lg tr fs]. cbn [reachable faults].
  split; [|split].
  - intros -> Hq. unfold deleteEvent. quiet_steps; reflexivity.
  - unfold deleteEvent. destruct up; steps; split; reflexivity.
  - unfold deleteEvent. destruct up; steps; intro H; try discriminate H.
    all: intros B' c' [up2 t2 ai2 x2 d2 lg2 tr2 fs2] Hid Ht Hup Hf;
      cbn [reachable faults tables hd] in Ht, Hup, Hf; subst up2 t2;
      unfold getEvent; exec;
      (destruct fs2 as [|f fs2]; [|cbn [hd] in Hf; subst f]);
      exec; engine_step; cbn [events]; rewrite Hid, filter_deleted; reflexivity.
Qed.

Lemma deletePerson_then_get {B} (c : Context B) (w : World) :
  (reachable w = true -> quiet_for 3 (faults w) ->
   fst (deletePerson eng c w) = Reply 204 NoContent)
  /\
  (event_person_tagging (tables (snd (deletePerson eng c w)))
     = event_person_tagging (tables w) /\
   event_image_tagging (tables (snd (deletePerson eng c w)))
     = event_image_tagging (tables w))
  /\
  (fst (deletePerson eng c w) = Reply 204 NoContent ->
   forall {B'} (c' : Context B') (w2 : World),
     Param c' "person_id" = Param c "person_id" ->
     tables w2 = tables (snd (deletePerson eng c w)) ->
     reachable w2 = true -> hd None (faults w2) = None ->
     fst (getPerson eng c' w2) = Reply 404 (Text "not found: person")).
Proof.
  destruct w as [up t ai x d lg tr fs]. cbn [reachable faults].
  split; [|split].
  - intros -> Hq. unfold deletePerson. quiet_steps; reflexivity.
  - unfold deletePerson. destruct up; steps; split; reflexivity.
  - unfold deletePerson. destruct up; steps; intro H; try discriminate H.
    all: intros B' c' [up2 t2 ai2 x2 d2 lg2 tr2 fs2] Hid Ht Hup Hf;
      cbn [reachable faults tables hd] in Ht, Hup, Hf; subst up2 t2;
      unfold getPerson; exec;
      (destruct fs2 as [|f fs2]; [|cbn [hd] in Hf; subst f]);
      exec; engine_step; cbn [persons]; rewrite Hid, filter_deleted; reflexivity.
Qed.

Lemma deleteImage_then_get {B} (c : Context B) (w : World) :
  (reachable w = true -> quiet_for 3 (faults w) ->
   fst (deleteImage eng c w) = Reply 204 NoContent)
  /\
  (event_person_tagging (tables (snd (deleteImage eng c w)))
     = event_person_tagging (tables w) /\
   event_image_tagging (tables (snd (deleteImage eng c w)))
     = event_image_tagging (tables w))
  /\
  (fst (deleteImage eng c w) = Reply 204 NoContent ->
   forall {B'} (c' : Context B') (w2 : World),
     Param c' "image_id" = Param c "image_id" ->
     tables w2 = tables (snd (deleteImage eng c w)) ->
     reachable w2 = true -> hd None (faults w2) = None ->
     fst (getImage eng c' w2) = Reply 404 (Text "not found: image")).
Proof.
  destruct w as [up t ai x d lg tr fs]. cbn [reachable faults].
  split; [|split].
  - intros -> Hq. unfold deleteImage. quiet_steps; reflexivity.
  - unfold deleteImage. destruct up; steps; split; reflexivity.
  - unfold deleteImage. destruct up; steps; intro H; try discriminate H.
    all: intros B' c' [up2 t2 ai2 x2 d2 lg2 tr2 fs2] Hid Ht Hup Hf;
      cbn [reachable faults tables hd] in Ht, Hup, Hf; subst up2 t2;
      unfold getImage; exec;
      (destruct fs2 as [|f fs2]; [|cbn [hd] in Hf; subst f]);
      exec; engine_step; cbn [images]; rewrite Hid, filter_deleted; reflexivity.
Qed.

(** C5. For events, persons and images alike: when no call fails, the
    delete handler answers 204 whatever rows the table holds, in particular
    when none has the id; it never changes the tagging tables; and once it
    has answered 204, a get for the same id, in any later world whose
    committed rows are those the delete left and whose store answers,
    returns 404. *)
Theorem delete_then_get_not_found {B} (c : Context B) (w : World) :
  ((reachable w = true -> quiet_for 3 (faults w) ->
    fst (deleteEvent eng c w) = Reply 204 NoContent)
   /\
   (event_person_tagging (tables (snd (deleteEvent eng c w)))
      = event_person_tagging (tables w) /\
    event_image_tagging (tables (snd (deleteEvent eng c w)))
      = event_image_tagging (tables w))
   /\
   (fst (deleteEvent eng c w) = Reply 204 NoContent ->
    forall {B'} (c' : Context B') (w2 : World),
      Param c' "event_id" = Param c "event_id" ->
      tables w2 = tables (snd (deleteEvent eng c w)) ->
      reachable w2 = true -> hd None (faults w2) = None ->
      fst (getEvent eng c' w2) = Reply 404 (Text "not found: event")))
  /\
  ((reachable w = true -> quiet_for 3 (faults w) ->
    fst (deletePerson eng c w) = Reply 204 NoContent)
   /\
   (event_person_tagging (tables (snd (deletePerson eng c w)))
      = event_person_tagging (tables w) /\
    event_image_tagging (tables (snd (deletePerson eng c w)))
      = event_image_tagging (tables w))
   /\
   (fst (deletePerson eng c w) = Reply 204 NoContent ->
    forall {B'} (c' : Context B') (w2 : World),
      Param c' "person_id" = Param c "person_id" ->
      tables w2 = tables (snd (deletePerson eng c w)) ->
      reachable w2 = true -> hd None (faults w2) = None ->
      fst (getPerson eng c' w2) = Reply 404 (Text "not found: person")))
  /\
  ((reachable w = true -> quiet_for 3 (faults w) ->
    fst (deleteImage eng c w) = Reply 204 NoContent)
   /\
   (event_person_tagging (tables (snd (deleteImage eng c w)))
      = event_person_tagging (tables w) /\
    event_image_tagging (tables (snd (deleteImage eng c w)))
      = event_image_tagging (tables w))
   /\
   (fst (deleteImage eng c w) = Reply 204 NoContent ->
    forall {B'} (c' : Context B') (w2 : World),
      Param c' "image_id" = Param c "image_id" ->
      tables w2 = tables (snd (deleteImage eng c w)) ->
      reachable w2 = true -> hd None (faults w2) = None ->
      fst (getImage eng c' w2) = Reply 404 (Text "not found: image"))).
Proof.
  split; [|split].
  - apply deleteEvent_then_get.
  - apply deletePerson_then_get.
  - apply deleteImage_then_get.
Qed.

(** The loop leaves early only with the 500 of a row that does not scan. *)
Lemma for_rows_exit {A B} (scan : A -> Row -> error + A) (item : A -> B) rows :
  forall dest acc w r w',
    for_rows scan item rows dest acc w = (inr r, w') -> r = Reply 500 NoContent.
Proof.
  induction rows as [|row rows IH]; intros dest acc w r w' H; cbn [for_rows] in H.
  - discriminate H.
  - revert H. destruct w as [up t ai x d lg tr fs]. exec.
    repeat (case_fault; try discriminate);
      (destruct (scan dest row) as [err|d']; exec;
       first [apply IH | intro H; now inversion H]).
Qed.

(** ** The display path of an image *)

(** C8. Every image in a detail returned by [getEvent], and the image
    returned by [getImage], carries as its path the text [/images/]
    followed by the decimal id and [.png]; the stored MIME type plays no
    part in it. *)
Theorem image_display_path {B} (c : Context B) (w : World) :
  (forall s d w',
      getEvent eng c w = (Reply s (JSONEventDetail d), w') ->
      Forall (fun ip => ImagePath ip =
                          "/images/" ++ Fmt.verb_d (ImageId (Image_ ip)) ++ ".png")
        (ImageAndPaths d))
  /\
  (forall s ip w',
      getImage eng c w = (Reply s (JSONImage ip), w') ->
      ImagePath ip = "/images/" ++ Fmt.verb_d (ImageId (Image_ ip)) ++ ".png").
Proof.
  destruct w as [up t ai x d lg tr fs]. split.
  - intros s dt w'. unfold getEvent. destruct up; exec; [|discriminate].
    steps; try discriminate;
      (destruct (filter _ (events t)) as [|ev evs]; cbn [map]; steps; try discriminate).
    all: match goal with |- context [for_rows ?sc ?it ?rows ?dest ?acc ?w0] =>
           destruct (for_rows sc it rows dest acc w0)
             as [[pl|r] [up1 t1 ai1 x1 d1 lg1 tr1 fs1]] eqn:E1;
           exec; [|apply for_rows_exit in E1; subst r; discriminate] end.
    all: destruct up1; exec; try discriminate.
    all: steps; try discriminate.
    all: match goal with |- context [for_rows ?sc ?it ?rows ?dest ?acc ?w0] =>
           destruct (for_rows sc it rows dest acc w0) as [[il|r] w2] eqn:E;
           exec; [|apply for_rows_exit in E; subst r; discriminate] end.
    all: intro H; inversion H; subst; cbn [ImageAndPaths].
    all: eapply for_rows_items; [|exact E|constructor]; reflexivity.
  - intros s ip w'. unfold getImage. destruct up; exec; [|discriminate].
    steps; try discriminate;
      (destruct (filter _ (images t)) as [|im ims]; cbn [map]; steps; try discriminate).
    all: intro H; inversion H; reflexivity.
Qed.

(** ** A body that does not decode *)

(** X20. Whatever the handlers do with the error of [Bind], none of them answers
    for it: response, committed rows and calls are those of a request whose
    body decodes to the zero value. *)
Lemma bind_failure_ignored (param query : string -> string)
    (form : string -> error + FileHeader) (e : error) (w : World) :
  let same (r1 r2 : Response * World) :=
    fst r1 = fst r2 /\ tables (snd r1) = tables (snd r2) /\
    trace (snd r1) = trace (snd r2) in
  same (postEvent eng (Build_Context param query (Undecodable e) form) w)
       (postEvent eng (Build_Context param query (Decodes zeroNewEvent) form) w)
  /\ same (postPerson eng (Build_Context param query (Undecodable e) form) w)
          (postPerson eng (Build_Context param query (Decodes zeroPerson) form) w)
  /\ same (bindEventPersons eng (Build_Context param query (Undecodable e) form) w)
          (bindEventPersons eng (Build_Context param query (Decodes []) form) w)
  /\ same (bindEventImages eng (Build_Context param query (Undecodable e) form) w)
          (bindEventImages eng (Build_Context param query (Decodes []) form) w).
Proof.
  intro same. subst same. cbv beta.
  destruct w as [up t ai x d lg tr fs].
  unfold postEvent, postPerson, bindEventPersons, bindEventImages.
  repeat split; destruct up;
    repeat first [progress steps | progress cbn [tag_persons tag_images for_range]];
    reflexivity.
Qed.

(** C6 (the code departs from the claim). For a body that does not decode,
    [postPerson] logs the error of [Bind] before anything else, while
    [postEvent] never logs it: its first new log line is the [info] line
    showing the zero-valued event, and any line after that reports a store
    error. *)
Theorem postEvent_bind_error_not_logged (param query : string -> string)
    (form : string -> error + FileHeader) (e : error) (w : World) :
  (exists rest,
      logs (snd (postPerson eng (Build_Context param query (Undecodable e) form) w)) =
      (logs w ++ Errorf "Bind error: %v" [LErr e] :: rest)%list)
  /\
  (exists rest,
      logs (snd (postEvent eng (Build_Context param query (Undecodable e) form) w)) =
      (logs w ++ Errorf "info: %v" [LNewEvent zeroNewEvent] :: rest)%list /\
      forall l, In l rest -> exists err, l = Errorf "db error: %v" [LErr err]).
Proof.
  destruct w as [up t ai x d lg tr fs]. split.
  - unfold postPerson. cbn [body]. destruct up; steps;
      rewrite <- ?app_assoc; cbn [app]; eexists; reflexivity.
  - unfold postEvent. cbn [body]. destruct up; steps;
      rewrite <- ?app_assoc; cbn [app]; eexists; (split; [reflexivity|]);
      cbn [In]; intros l Hl; intuition eauto.
Qed.

(** ** The row loop, row by row *)

(** On a quiet schedule the loop returns an item for every row. *)
Lemma for_rows_quiet {A B} (scan : A -> Row -> error + A) (item : A -> B)
    (g : Row -> A) (P : A -> Prop) rows :
  (forall d r, In r rows -> P d -> scan d r = inr (g r) /\ P (g r)) ->
  forall dest acc up t ai x d lg tr fs,
    P dest ->
    quiet_for (2 * length rows) fs ->
    for_rows scan item rows dest acc (Build_World up t ai x d lg tr fs) =
    (inl (acc ++ map (fun r => item (g r)) rows)%list,
     Build_World up t ai x d lg tr (skipn (2 * length rows) fs)).
Proof.
  induction rows as [|r rows IH]; intros Hscan dest acc up t ai x d lg tr fs HP Hq.
  - cbn. now rewrite app_nil_r.
  - destruct (Hscan dest r (or_introl eq_refl) HP) as [Hr HP'].
    assert (Hrest : forall d r, In r rows -> P d -> scan d r = inr (g r) /\ P (g r))
      by (intros; apply Hscan; [now right | assumption]).
    assert (E : (2 * length (r :: rows) = S (S (2 * length rows)))%nat)
      by (cbn [length]; lia).
    rewrite E in *. clear E. cbn [for_rows map].
    exec. destruct fs as [|f1 fs]; exec.
    + rewrite Hr. rewrite (IH Hrest) by (assumption || apply quiet_for_nil).
      rewrite <- app_assoc. destruct (2 * length rows)%nat; reflexivity.
    + apply quiet_for_cons_inv in Hq. destruct Hq as [-> Hq]. exec.
      destruct fs as [|f2 fs]; exec.
      * rewrite Hr. rewrite (IH Hrest) by (assumption || apply quiet_for_nil).
        rewrite <- app_assoc. destruct (2 * length rows)%nat; reflexivity.
      * apply quiet_for_cons_inv in Hq. destruct Hq as [-> Hq]. exec.
        rewrite Hr. rewrite (IH Hrest) by assumption.
        rewrite <- app_assoc. reflexivity.
Qed.

(** When [Next] fails after the rows [pre], the loop ends as if [pre] were
    all the rows. *)
Lemma for_rows_truncated {A B} (scan : A -> Row -> error + A) (item : A -> B)
    (g : Row -> A) (P : A -> Prop) pre x post e :
  (forall d r, In r pre -> P d -> scan d r = inr (g r) /\ P (g r)) ->
  forall dest acc up t ai tx0 d lg tr fs,
    P dest ->
    for_rows scan item (pre ++ x :: post) dest acc
      (Build_World up t ai tx0 d lg tr (repeat None (2 * length pre) ++ Some e :: fs)%list) =
    (inl (acc ++ map (fun r => item (g r)) pre)%list,
     Build_World up t ai tx0 d lg tr fs).
Proof.
  induction pre as [|r pre IH]; intros Hscan dest acc up t ai tx0 d lg tr fs HP.
  - cbn [app length Nat.mul repeat for_rows map]. exec. now rewrite app_nil_r.
  - destruct (Hscan dest r (or_introl eq_refl) HP) as [Hr HP'].
    assert (Hrest : forall d r, In r pre -> P d -> scan d r = inr (g r) /\ P (g r))
      by (intros; apply Hscan; [now right | assumption]).
    assert (E : (2 * length (r :: pre) = S (S (2 * length pre)))%nat)
      by (cbn [length]; lia).
    rewrite E. clear E. cbn [app for_rows map repeat]. exec. rewrite Hr. rewrite (IH Hrest) by assumption.
    rewrite <- app_assoc. reflexivity.
Qed.

(** Whatever the schedule, the items returned are those of the first rows. *)
Lemma for_rows_prefix {A B} (scan : A -> Row -> error + A) (item : A -> B)
    (g : Row -> A) (P : A -> Prop) rows :
  (forall d r, In r rows -> P d -> scan d r = inr (g r) /\ P (g r)) ->
  forall dest acc w l w',
    P dest ->
    for_rows scan item rows dest acc w = (inl l, w') ->
    exists k, l = (acc ++ map (fun r => item (g r)) (firstn k rows))%list.
Proof.
  induction rows as [|r rows IH]; intros Hscan dest acc w l w' HP H.
  - cbn in H. inversion H. exists 0%nat. cbn. now rewrite app_nil_r.
  - destruct (Hscan dest r (or_introl eq_refl) HP) as [Hr HP'].
    assert (Hrest : forall d r, In r rows -> P d -> scan d r = inr (g r) /\ P (g r))
      by (intros; apply Hscan; [now right | assumption]).
    cbn [for_rows] in H. revert H. destruct w as [up t ai x d lg tr fs]. exec.
    assert (Hstop : forall wx : World,
               (inl acc : list B + Response, wx) = (inl l, w') ->
               exists k, l = (acc ++ map (fun r0 => item (g r0)) (firstn k (r :: rows)))%list).
    { intros wx H. inversion H. exists 0%nat. cbn. now rewrite app_nil_r. }
    assert (Hgo : forall wx : World,
               for_rows scan item rows (g r) (acc ++ [item (g r)])%list wx = (inl l, w') ->
               exists k, l = (acc ++ map (fun r0 => item (g r0)) (firstn k (r :: rows)))%list).
    { intros wx H. destruct (IH Hrest _ _ _ _ _ HP' H) as [k Hk].
      exists (S k). cbn [firstn map]. rewrite Hk, <- app_assoc. reflexivity. }
    repeat (case_fault; try discriminate); rewrite ?Hr; exec;
      first [apply Hstop | apply Hgo].
Qed.

(** The rows of the three list queries scan into the values they carry. *)
Lemma person_rows_scan ps :
  forall d r, In r (map RowPerson ps) -> True ->
              scanPerson d r = inr (person_of r) /\ True.
Proof.
  intros d r Hr _. apply in_map_iff in Hr. destruct Hr as [p [<- _]]. now split.
Qed.

Lemma image_rows_scan im :
  forall d r, In r (map RowImage im) -> True ->
              scanImage d r = inr (image_of r) /\ True.
Proof.
  intros d r Hr _. apply in_map_iff in Hr. destruct Hr as [p [<- _]]. now split.
Qed.

Lemma event_rows_scan ev :
  forall d r,
    In r (map (fun e => RowEventCols (EventID e) (Title e) (Description e) (EventDate e)) ev) ->
    AccountID d = 0 ->
    scanEvent d r = inr (event_of r) /\ AccountID (event_of r) = 0.
Proof.
  intros d r Hr Hd. apply in_map_iff in Hr. destruct Hr as [e [<- _]].
  cbn. rewrite Hd. now split.
Qed.

Lemma sql_query_list_events t last :
  sql_query eng
    ("select event_id, title, description, event_date from events"
     ++ EmptyString ++ EmptyString) [] t last =
  inr (map (fun e => RowEventCols (EventID e) (Title e) (Description e) (EventDate e))
         (events t)).
Proof. reflexivity. Qed.

Lemma sql_query_list_persons t last :
  sql_query eng ("select * from persons" ++ EmptyString ++ EmptyString) [] t last =
  inr (map RowPerson (persons t)).
Proof. reflexivity. Qed.

Lemma sql_query_list_images t last :
  sql_query eng ("select * from images" ++ EmptyString ++ EmptyString) [] t last =
  inr (map RowImage (images t)).
Proof. reflexivity. Qed.

(** ** Listing a table *)

Lemma map_person_of ps : map (fun r => person_of r) (map RowPerson ps) = ps.
Proof. rewrite map_map. cbn. apply map_id. Qed.

Lemma map_image_of im :
  map (fun r => with_path (image_of r)) (map RowImage im) = map with_path im.
Proof. now rewrite map_map. Qed.

Lemma map_event_of ev :
  map (fun r => event_of r)
    (map (fun e => RowEventCols (EventID e) (Title e) (Description e) (EventDate e)) ev)
  = map listed ev.
Proof. now rewrite map_map. Qed.

(** X1. Without [limit] and [offset], and when no call fails, a list handler
    answers 200 with every row of its table, in table order: the persons as
    stored, the images each with its derived path, the events with the four
    columns the query names, so that [AccountID] is 0 in every one of them. *)
Theorem list_returns_whole_table {B} (c : Context B) (w : World) :
  unpaged c -> reachable w = true ->
  (quiet_for (1 + 2 * length (events (tables w))) (faults w) ->
   fst (getEventList eng c w) = Reply 200 (JSONEvents (map listed (events (tables w)))))
  /\
  (quiet_for (1 + 2 * length (persons (tables w))) (faults w) ->
   fst (getPersonList eng c w) = Reply 200 (JSONPersons (persons (tables w))))
  /\
  (quiet_for (1 + 2 * length (images (tables w))) (faults w) ->
   fst (getImageList eng c w) =
     Reply 200 (JSONImages (map with_path (images (tables w))))).
Proof.
  destruct w as [up t ai x d lg tr fs]. cbn [reachable faults tables].
  intros [Hl Ho] ->. split; [|split]; intro Hq; cbn [Nat.add] in Hq.
  - unfold getEventList. rewrite Hl, Ho. cbn [String.eqb]. exec.
    quiet_fault; rewrite sql_query_list_events; exec.
    + rewrite (@for_rows_quiet _ _ _ (fun event => event) _ _ _ (event_rows_scan (events t)))
        by (try reflexivity; apply quiet_for_nil).
      exec. cbn [app]. now rewrite map_event_of.
    + rewrite (@for_rows_quiet _ _ _ (fun event => event) _ _ _ (event_rows_scan (events t)))
        by (try reflexivity; rewrite ?length_map; assumption).
      exec. cbn [app]. now rewrite map_event_of.
  - unfold getPersonList. rewrite Hl, Ho. cbn [String.eqb]. exec.
    quiet_fault; rewrite sql_query_list_persons; exec.
    + rewrite (@for_rows_quiet _ _ _ (fun person => person) _ _ _ (person_rows_scan (persons t)))
        by (try exact I; apply quiet_for_nil).
      exec. cbn [app]. now rewrite map_person_of.
    + rewrite (@for_rows_quiet _ _ _ (fun person => person) _ _ _ (person_rows_scan (persons t)))
        by (try exact I; rewrite ?length_map; assumption).
      exec. cbn [app]. now rewrite map_person_of.
  - unfold getImageList. rewrite Hl, Ho. cbn [String.eqb]. exec.
    quiet_fault; rewrite sql_query_list_images; exec.
    + rewrite (@for_rows_quiet _ _ _ (fun image => with_path image) _ _ _
                 (image_rows_scan (images t)))
        by (try exact I; apply quiet_for_nil).
      exec. cbn [app]. now rewrite map_image_of.
    + rewrite (@for_rows_quiet _ _ _ (fun image => with_path image) _ _ _
                 (image_rows_scan (images t)))
        by (try exact I; rewrite ?length_map; assumption).
      exec. cbn [app]. now rewrite map_image_of.
Qed.

(** X2. A failure of [rows.Next] is not reported: when it fails after the rows
    [pre] of the table were scanned, the list handler answers 200 with
    [pre] alone, as if the table ended there. *)
Theorem list_truncated_when_Next_fails {B} (c : Context B) (w : World)
    (e : error) (fs : list (option error)) :
  unpaged c -> reachable w = true ->
  (forall pre x post,
      events (tables w) = (pre ++ x :: post)%list ->
      faults w = (None :: repeat None (2 * length pre) ++ Some e :: fs)%list ->
      fst (getEventList eng c w) = Reply 200 (JSONEvents (map listed pre)))
  /\
  (forall pre x post,
      persons (tables w) = (pre ++ x :: post)%list ->
      faults w = (None :: repeat None (2 * length pre) ++ Some e :: fs)%list ->
      fst (getPersonList eng c w) = Reply 200 (JSONPersons pre))
  /\
  (forall pre x post,
      images (tables w) = (pre ++ x :: post)%list ->
      faults w = (None :: repeat None (2 * length pre) ++ Some e :: fs)%list ->
      fst (getImageList eng c w) = Reply 200 (JSONImages (map with_path pre))).
Proof.
  destruct w as [up t ai x0 d lg tr fs0]. cbn [reachable faults tables].
  intros [Hl Ho] ->. split; [|split]; intros pre x post Ht ->.
  - unfold getEventList. rewrite Hl, Ho. cbn [String.eqb]. exec.
    rewrite sql_query_list_events, Ht, map_app. cbn [map]. exec.
    rewrite <- (length_map
                  (fun e => RowEventCols (EventID e) (Title e) (Description e) (EventDate e))
                  pre).
    rewrite (@for_rows_truncated _ _ _ (fun event => event) _ _ _ _ _ _
               (event_rows_scan pre)) by reflexivity.
    exec. cbn [app]. now rewrite map_event_of.
  - unfold getPersonList. rewrite Hl, Ho. cbn [String.eqb]. exec.
    rewrite sql_query_list_persons, Ht, map_app. cbn [map]. exec.
    rewrite <- (length_map RowPerson pre).
    rewrite (@for_rows_truncated _ _ _ (fun person => person) _ _ _ _ _ _
               (person_rows_scan pre)) by exact I.
    exec. cbn [app]. now rewrite map_person_of.
  - unfold getImageList. rewrite Hl, Ho. cbn [String.eqb]. exec.
    rewrite sql_query_list_images, Ht, map_app. cbn [map]. exec.
    rewrite <- (length_map RowImage pre).
    rewrite (@for_rows_truncated _ _ _ (fun image => with_path image) _ _ _ _ _ _
               (image_rows_scan pre)) by exact I.
    exec. cbn [app]. now rewrite map_image_of.
Qed.

(** X3. Every image a list answer carries has the path made of [/images/], its
    decimal id and [.png], whatever the schedule and the parameters. *)
Theorem getImageList_paths {B} (c : Context B) (w : World) :
  forall s l w',
    getImageList eng c w = (Reply s (JSONImages l), w') ->
    Forall (fun ip => ImagePath ip =
                        "/images/" ++ Fmt.verb_d (ImageId (Image_ ip)) ++ ".png") l.
Proof.
  intros s l w'. unfold getImageList.
  set (q := String.append _ (String.append _ _)).
  destruct w as [up t ai x d lg tr fs]. destruct up; exec; [|discriminate].
  repeat case_fault; try discriminate;
    (destruct (sql_query eng q [] t 0) as [err|rows]; exec; [discriminate|]).
  all: match goal with |- context [for_rows ?sc ?it ?rs ?dest ?acc ?w0] =>
         destruct (for_rows sc it rs dest acc w0) as [[il|r] w2] eqn:E;
         exec; [|apply for_rows_exit in E; subst r; discriminate] end.
  all: intro H; inversion H; subst.
  all: eapply for_rows_items; [|exact E|constructor]; reflexivity.
Qed.

(** ** What the read handlers leave alone *)

(** Runs the row loop at hand, keeping what it leaves unchanged. *)
Ltac loop_frame :=
  match goal with
  | |- context [for_rows ?sc ?it ?rs ?dest ?acc ?w0] =>
      let F := fresh "F" in
      pose proof (for_rows_frame sc it rs dest acc w0) as F;
      destruct (for_rows sc it rs dest acc w0) as [[? | ?] [? ? ? ? ? ? ? ?]];
      cbv zeta in F; cbn [snd trace tables tx disk] in F;
      destruct F as (? & ? & ? & ?); subst; exec
  end.

Ltac any_query :=
  match goal with
  | |- context [sql_query eng ?q [] ?t ?l] =>
      destruct (sql_query eng q [] t l) as [? | ?]; exec
  end.

(** X5. The six read handlers never change the committed rows, never open a
    transaction and never touch the files, whatever the schedule and
    whatever they answer. *)
Theorem reads_change_nothing {B} (c : Context B) (w : World) :
  same_store w (snd (getEventList eng c w)) /\
  same_store w (snd (getEvent eng c w)) /\
  same_store w (snd (getPersonList eng c w)) /\
  same_store w (snd (getPerson eng c w)) /\
  same_store w (snd (getImageList eng c w)) /\
  same_store w (snd (getImage eng c w)).
Proof.
  unfold same_store. destruct w as [up t ai x d lg tr fs].
  repeat split.
  all: unfold getEventList, getEvent, getPersonList, getPerson, getImageList, getImage.
  all: try set (q := String.append _ (String.append _ _)).
  all: destruct up; exec; try reflexivity.
  all: repeat first
         [ reflexivity
         | progress steps
         | any_query
         | loop_frame
         | match goal with
           | |- context [map _ (filter ?f ?l)] =>
               destruct (filter f l) as [|? ?]; cbn [map]
           | |- context [if ?b then _ else _] => is_var b; destruct b; exec
           end ].
Qed.

(** ** What the write handlers leave alone *)

(** The tagging loops never touch the committed rows or the files. *)
Lemma tag_persons_frame eventID l :
  forall w,
    tables (snd (tag_persons eng eventID l w)) = tables w /\
    disk (snd (tag_persons eng eventID l w)) = disk w.
Proof.
  induction l as [|p l IH]; intro w.
  - now split.
  - unfold tag_persons. cbn [for_range].
    change (for_range l _) with (tag_persons eng eventID l).
    destruct w as [up t ai [[tbl last]|] d lg tr fs]; steps; try (now split);
      match goal with |- context [tag_persons eng eventID l ?w0] =>
        destruct (IH w0) as [Ht Hd];
        destruct (tag_persons eng eventID l w0) as [[[]|?] ?]; exec;
        cbn [snd tables disk] in Ht, Hd; now split end.
Qed.

Lemma tag_images_frame eventID l :
  forall w,
    tables (snd (tag_images eng eventID l w)) = tables w /\
    disk (snd (tag_images eng eventID l w)) = disk w.
Proof.
  induction l as [|p l IH]; intro w.
  - now split.
  - unfold tag_images. cbn [for_range].
    change (for_range l _) with (tag_images eng eventID l).
    destruct w as [up t ai [[tbl last]|] d lg tr fs]; steps; try (now split);
      match goal with |- context [tag_images eng eventID l ?w0] =>
        destruct (IH w0) as [Ht Hd];
        destruct (tag_images eng eventID l w0) as [[[]|?] ?]; exec;
        cbn [snd tables disk] in Ht, Hd; now split end.
Qed.

(** Runs the tagging loop at hand, keeping what it leaves unchanged. *)
Ltac tag_frame :=
  match goal with
  | |- context [tag_persons eng ?ev ?l ?w0] =>
      let F := fresh "F" in
      pose proof (tag_persons_frame ev l w0) as F;
      destruct (tag_persons eng ev l w0) as [[[] | ?] [? ? ? [[? ?]|] ? ? ? ?]];
      cbn [snd tables disk] in F; destruct F as (? & ?); subst; exec
  | |- context [tag_images eng ?ev ?l ?w0] =>
      let F := fresh "F" in
      pose proof (tag_images_frame ev l w0) as F;
      destruct (tag_images eng ev l w0) as [[[] | ?] [? ? ? [[? ?]|] ? ? ? ?]];
      cbn [snd tables disk] in F; destruct F as (? & ?); subst; exec
  end.

Ltac write_cases :=
  repeat first
    [ reflexivity
    | progress steps
    | bound_body
    | tag_frame ].

(** X6. Of all the handlers only [uploadImage] writes a file: creating an
    event or a person, deleting an event, a person or an image, and
    tagging leave the image directory as it was, whatever the schedule. In
    particular [deleteImage] leaves the file of the image it deletes. *)
Theorem only_upload_touches_files
    (ce : Context NewEvent.t) (cp : Context Person)
    (cps : Context (list Person)) (cis : Context (list Image))
    {B} (c : Context B) (w : World) :
  disk (snd (postEvent eng ce w)) = disk w /\
  disk (snd (postPerson eng cp w)) = disk w /\
  disk (snd (deleteEvent eng c w)) = disk w /\
  disk (snd (deletePerson eng c w)) = disk w /\
  disk (snd (deleteImage eng c w)) = disk w /\
  disk (snd (bindEventPersons eng cps w)) = disk w /\
  disk (snd (bindEventImages eng cis w)) = disk w.
Proof.
  destruct w as [up t ai x d lg tr fs].
  repeat split.
  all: unfold postEvent, postPerson, deleteEvent, deletePerson, deleteImage,
         bindEventPersons, bindEventImages.
  all: destruct up; write_cases.
Qed.

(** X7. No write handler leaves a transaction open: whatever the schedule and
    the answer, a request that began without a transaction ends without
    one. *)
Theorem writes_leave_no_transaction
    (ce : Context NewEvent.t) (cp : Context Person)
    (cps : Context (list Person)) (cis : Context (list Image))
    {B} (c : Context B) (w : World) :
  tx w = None ->
  tx (snd (postEvent eng ce w)) = None /\
  tx (snd (postPerson eng cp w)) = None /\
  tx (snd (uploadImage eng c w)) = None /\
  tx (snd (deleteEvent eng c w)) = None /\
  tx (snd (deletePerson eng c w)) = None /\
  tx (snd (deleteImage eng c w)) = None /\
  tx (snd (bindEventPersons eng cps w)) = None /\
  tx (snd (bindEventImages eng cis w)) = None.
Proof.
  destruct w as [up t ai x d lg tr fs]. cbn [tx]. intros ->.
  repeat split.
  all: unfold postEvent, postPerson, uploadImage, deleteEvent, deletePerson,
         deleteImage, bindEventPersons, bindEventImages.
  all: destruct up; exec.
  all: try (destruct (FormFile c "file") as [?|file]; exec; [reflexivity|];
            destruct (1000000 <? Size file); exec; [reflexivity|]).
  all: write_cases.
Qed.

(** ** Tagging under any schedule *)

(** However the loop ends, it ends either with every row of the list added
    to the transaction, or with the answer 409 or 500. *)
Lemma tag_persons_any eventID l :
  forall w tbl last,
    tx w = Some (Build_Tx tbl last) ->
    match tag_persons eng eventID l w with
    | (inl _, w') =>
        tx w' = Some (Build_Tx
                        (add_person_tags
                           (map (fun p => (sql_int eng eventID, PersonId p)) l) tbl)
                        last)
    | (inr r, _) =>
        r = Reply 409 (Text "duplicated: bind") \/ r = Reply 500 NoContent
    end.
Proof.
  induction l as [|p l IH]; intros w tbl last Hx.
  - cbn. now rewrite add_person_tags_nil.
  - unfold tag_persons. cbn [for_range map].
    change (for_range l _) with (tag_persons eng eventID l).
    destruct w as [up t ai x d lg tr fs]. cbn [tx] in Hx. subst x.
    steps; auto;
      match goal with |- context [tag_persons eng eventID l ?w0] =>
        specialize (IH w0 _ _ eq_refl);
        destruct (tag_persons eng eventID l w0) as [[[]|?] ?]; exec;
        [rewrite IH, add_person_tags_cons; reflexivity | exact IH] end.
Qed.

Lemma tag_images_any eventID l :
  forall w tbl last,
    tx w = Some (Build_Tx tbl last) ->
    match tag_images eng eventID l w with
    | (inl _, w') =>
        tx w' = Some (Build_Tx
                        (add_image_tags
                           (map (fun i => (sql_int eng eventID, ImageId i)) l) tbl)
                        last)
    | (inr r, _) =>
        r = Reply 409 (Text "duplicated: bind") \/ r = Reply 500 NoContent
    end.
Proof.
  induction l as [|p l IH]; intros w tbl last Hx.
  - cbn. now rewrite add_image_tags_nil.
  - unfold tag_images. cbn [for_range map].
    change (for_range l _) with (tag_images eng eventID l).
    destruct w as [up t ai x d lg tr fs]. cbn [tx] in Hx. subst x.
    steps; auto;
      match goal with |- context [tag_images eng eventID l ?w0] =>
        specialize (IH w0 _ _ eq_refl);
        destruct (tag_images eng eventID l w0) as [[[]|?] ?]; exec;
        [rewrite IH, add_image_tags_cons; reflexivity | exact IH] end.
Qed.

Lemma bindEventPersons_any (c : Context (list Person)) (w : World) :
  let l := fst (Bind c []) in
  let r := bindEventPersons eng c w in
  (fst r = Reply 204 NoContent /\
   tables (snd r) =
     add_person_tags (map (fun p => (sql_int eng (Param c "event_id"), PersonId p)) l)
       (tables w))
  \/
  ((fst r = Reply 409 (Text "duplicated: bind") \/ fst r = Reply 500 NoContent) /\
   tables (snd r) = tables w).
Proof.
  intros l r. subst l r. destruct w as [up t ai x d lg tr fs].
  unfold bindEventPersons. destruct up; exec; bound_body; steps; auto.
  all: match goal with |- context [tag_persons eng ?ev ?l ?w0] =>
         pose proof (tag_persons_any ev l w0 eq_refl) as A;
         pose proof (tag_persons_frame ev l w0) as F;
         destruct (tag_persons eng ev l w0) as [[[] | ?] [? ? ? ? ? ? ? ?]];
         cbn [snd tables disk tx] in A, F; destruct F as (? & ?); subst; exec
       end.
  all: steps; cbn [Bind body fst]; intuition auto.
Qed.

Lemma bindEventImages_any (c : Context (list Image)) (w : World) :
  let l := fst (Bind c []) in
  let r := bindEventImages eng c w in
  (fst r = Reply 204 NoContent /\
   tables (snd r) =
     add_image_tags (map (fun i => (sql_int eng (Param c "event_id"), ImageId i)) l)
       (tables w))
  \/
  ((fst r = Reply 409 (Text "duplicated: bind") \/ fst r = Reply 500 NoContent) /\
   tables (snd r) = tables w).
Proof.
  intros l r. subst l r. destruct w as [up t ai x d lg tr fs].
  unfold bindEventImages. destruct up; exec; bound_body; steps; auto.
  all: match goal with |- context [tag_images eng ?ev ?l ?w0] =>
         pose proof (tag_images_any ev l w0 eq_refl) as A;
         pose proof (tag_images_frame ev l w0) as F;
         destruct (tag_images eng ev l w0) as [[[] | ?] [? ? ? ? ? ? ? ?]];
         cbn [snd tables disk tx] in A, F; destruct F as (? & ?); subst; exec
       end.
  all: steps; cbn [Bind body fst]; intuition auto.
Qed.

(** X8. Under every schedule a tagging request is all or nothing: either it
    answers 204 and the committed rows are those from before with one row
    per element of the decoded list appended in order, or it answers 409 or
    500 and the committed rows are those from before. *)
Theorem bind_commits_all_or_nothing
    (cps : Context (list Person)) (cis : Context (list Image)) (w : World) :
  ((fst (bindEventPersons eng cps w) = Reply 204 NoContent /\
    tables (snd (bindEventPersons eng cps w)) =
      add_person_tags
        (map (fun p => (sql_int eng (Param cps "event_id"), PersonId p))
           (fst (Bind cps [])))
        (tables w))
   \/
   ((fst (bindEventPersons eng cps w) = Reply 409 (Text "duplicated: bind") \/
     fst (bindEventPersons eng cps w) = Reply 500 NoContent) /\
    tables (snd (bindEventPersons eng cps w)) = tables w))
  /\
  ((fst (bindEventImages eng cis w) = Reply 204 NoContent /\
    tables (snd (bindEventImages eng cis w)) =
      add_image_tags
        (map (fun i => (sql_int eng (Param cis "event_id"), ImageId i))
           (fst (Bind cis [])))
        (tables w))
   \/
   ((fst (bindEventImages eng cis w) = Reply 409 (Text "duplicated: bind") \/
     fst (bindEventImages eng cis w) = Reply 500 NoContent) /\
    tables (snd (bindEventImages eng cis w)) = tables w)).
Proof.
  split; [apply bindEventPersons_any | apply bindEventImages_any].
Qed.

(** ** The detail of an event *)

Lemma quiet_for_skipn n m fs : quiet_for (n + m) fs -> quiet_for m (skipn n fs).
Proof. intro H. apply (quiet_for_split _ _ H). Qed.

Lemma quiet_for_le n m fs : (m <= n)%nat -> quiet_for n fs -> quiet_for m fs.
Proof.
  intros Hle H. replace n with (m + (n - m))%nat in H by lia.
  apply (quiet_for_split _ _ H).
Qed.

(** The detail on a quiet schedule. *)
Lemma getEvent_quiet {B} (c : Context B) (w : World) (e : Event) (rest : list Event) :
  let key := sql_int eng (Param c "event_id") in
  let t := tables w in
  let ps := filter (fun p => tagged (event_person_tagging t) key (PersonId p)) (persons t) in
  let im := filter (fun i => tagged (event_image_tagging t) key (ImageId i)) (images t) in
  reachable w = true ->
  quiet_for (3 + 2 * length ps + 2 * length im) (faults w) ->
  filter (fun e => EventID e =? key) (events t) = e :: rest ->
  fst (getEvent eng c w) =
    Reply 200 (JSONEventDetail (Build_EventDatail e ps (map with_path im))).
Proof.
  intros key t ps im. subst t. destruct w as [up t ai x d lg tr fs].
  cbn [reachable faults tables] in *. intros -> Hq He.
  unfold getEvent.
  assert (Hstep : forall n f fs', quiet_for (S n) (f :: fs') -> f = None /\ quiet_for n fs')
    by (intros; now apply quiet_for_cons_inv).
  (* the event *)
  exec. destruct fs as [|f fs]; [|destruct (Hstep _ _ _ Hq) as [-> Hq1]]; exec;
    engine_step; fold key; rewrite He; cbn [map scanEvent]; exec.
  - (* nothing is scheduled at all *)
    engine_step. fold key. fold ps. exec.
    rewrite (@for_rows_quiet _ _ _ (fun person => person) _ _ _ (person_rows_scan ps))
      by (try exact I; apply quiet_for_nil).
    exec. rewrite skipn_nil.
    exec. engine_step. fold key. fold im. exec.
    rewrite (@for_rows_quiet _ _ _ (fun image => with_path image) _ _ _ (image_rows_scan im))
      by (try exact I; apply quiet_for_nil).
    exec. cbn [app]. now rewrite map_person_of, map_image_of.
  - (* the persons *)
    cbn [Nat.add] in Hq1.
    destruct fs as [|f fs]; [|destruct (Hstep _ _ _ Hq1) as [-> Hq2]]; exec;
      engine_step; fold key; fold ps; exec.
    + rewrite (@for_rows_quiet _ _ _ (fun person => person) _ _ _ (person_rows_scan ps))
        by (try exact I; apply quiet_for_nil).
      exec. rewrite skipn_nil.
      exec. engine_step. fold key. fold im. exec.
      rewrite (@for_rows_quiet _ _ _ (fun image => with_path image) _ _ _ (image_rows_scan im))
        by (try exact I; apply quiet_for_nil).
      exec. cbn [app]. now rewrite map_person_of, map_image_of.
    + assert (Hp : quiet_for (2 * length (map RowPerson ps)) fs).
      { rewrite length_map. apply (quiet_for_le (n := S (2 * length ps + 2 * length im)));
          [lia | exact Hq2]. }
      rewrite (@for_rows_quiet _ _ _ (fun person => person) _ _ _ (person_rows_scan ps))
        by (try exact I; exact Hp).
      exec. rewrite length_map.
      assert (Hi : quiet_for (S (2 * length im)) (skipn (2 * length ps) fs)).
      { apply quiet_for_skipn.
        apply (quiet_for_le (n := S (2 * length ps + 2 * length im))); [lia | exact Hq2]. }
      destruct (skipn (2 * length ps) fs) as [|f fs1];
        [|destruct (Hstep _ _ _ Hi) as [-> Hi1]]; exec;
        engine_step; fold key; fold im; exec.
      * rewrite (@for_rows_quiet _ _ _ (fun image => with_path image) _ _ _ (image_rows_scan im))
          by (try exact I; apply quiet_for_nil).
        exec. cbn [app]. now rewrite map_person_of, map_image_of.
      * rewrite (@for_rows_quiet _ _ _ (fun image => with_path image) _ _ _ (image_rows_scan im))
          by (try exact I; rewrite length_map; exact Hi1).
        exec. cbn [app]. now rewrite map_person_of, map_image_of.
Qed.

(** X9. When no call fails, [getEvent] answers 200 with the first event row of
    the id, the persons of the table that a tagging row of the event names,
    and the images that one names, each with its path; both in table order
    and each once, however many tagging rows name it. *)
Theorem getEvent_detail {B} (c : Context B) (w : World) (e : Event) (rest : list Event) :
  let key := sql_int eng (Param c "event_id") in
  let t := tables w in
  let ps := filter (fun p => tagged (event_person_tagging t) key (PersonId p)) (persons t) in
  let im := filter (fun i => tagged (event_image_tagging t) key (ImageId i)) (images t) in
  reachable w = true ->
  quiet_for (3 + 2 * length ps + 2 * length im) (faults w) ->
  filter (fun e => EventID e =? key) (events t) = e :: rest ->
  fst (getEvent eng c w) =
    Reply 200 (JSONEventDetail (Build_EventDatail e ps (map with_path im))).
Proof. apply getEvent_quiet. Qed.

(** ** Creating, then reading *)

(** X10. A person created is the person read back: when the create answers 201
    with an id no row had before, a get for that id, in a later world that
    holds the rows the create left, answers 200 with that id and the two
    names of the body. *)
Theorem created_person_is_found (cp : Context Person) (w : World)
    {B} (c' : Context B) (w2 : World) :
  let person := fst (Bind cp zeroPerson) in
  let id := next_person (autoinc w) in
  tx w = None -> reachable w = true -> quiet_for 4 (faults w) ->
  (forall p, In p (persons (tables w)) -> PersonId p <> id) ->
  sql_int eng (Param c' "person_id") = id ->
  tables w2 = tables (snd (postPerson eng cp w)) ->
  reachable w2 = true -> hd None (faults w2) = None ->
  fst (postPerson eng cp w) = Reply 201 (JSONId "PersonID" id) /\
  fst (getPerson eng c' w2) =
    Reply 200 (JSONPerson (Build_Person id (FirstName person) (LastName person))).
Proof.
  intros person id Hx Hup Hq Hfresh Hid Ht Hup2 Hf.
  destruct (proj2 (proj2 (postPerson_contract cp w Hx)) Hup Hq) as (Hr & Ht' & _).
  split; [exact Hr|]. rewrite Ht' in Ht. clear Ht' Hr.
  destruct w2 as [up2 t2 ai2 x2 d2 lg2 tr2 fs2].
  cbn [reachable faults tables hd] in Ht, Hup2, Hf. subst up2 t2.
  unfold getPerson. exec.
  destruct fs2 as [|f fs2]; [|cbn [hd] in Hf; subst f]; exec; engine_step;
    cbn [persons]; rewrite Hid, filter_app, (filter_none _ _);
    try (intros a Ha; apply Z.eqb_neq; now apply Hfresh);
    cbn [filter PersonId app]; fold id; rewrite Z.eqb_refl; reflexivity.
Qed.

(** X11. An image uploaded is the image read back, and its bytes are in the
    file its path names. *)
Theorem uploaded_image_is_found {B} (c : Context B) (w : World) (file : FileHeader)
    {B'} (c' : Context B') (w2 : World) :
  let id := next_image (autoinc w) in
  FormFile c "file" = inr file -> Size file <= 1000000 ->
  tx w = None -> reachable w = true -> quiet_for 7 (faults w) ->
  (forall i, In i (images (tables w)) -> ImageId i <> id) ->
  sql_int eng (Param c' "image_id") = id ->
  tables w2 = tables (snd (uploadImage eng c w)) ->
  reachable w2 = true -> hd None (faults w2) = None ->
  fst (uploadImage eng c w) = Reply 201 (JSONId "ImageID" id) /\
  read_file (imagesPath ++ "/" ++ Fmt.verb_d id ++ ".png")
    (disk (snd (uploadImage eng c w))) = Some (content file) /\
  fst (getImage eng c' w2) =
    Reply 200 (JSONImage
                 (with_path (Build_Image id (Filename file) (HeaderContentType file)))).
Proof.
  intros id Hfile Hsize Hx Hup Hq Hfresh Hid Ht Hup2 Hf.
  destruct (proj2 (proj2 (uploadImage_contract c w Hfile Hsize Hx)) Hup Hq)
    as (Hr & Ht' & _).
  split; [exact Hr|]. rewrite Ht' in Ht. clear Ht' Hr. split.
  - clear Ht Hfresh. destruct w as [up t ai x d lg tr fs].
    cbn [reachable faults tx autoinc] in *. subst up x id.
    assert (Hlt : (1000000 <? Size file) = false) by (apply Z.ltb_ge; exact Hsize).
    unfold uploadImage. exec. rewrite Hfile, Hlt. quiet_steps;
      unfold write_file; cbn [read_file]; now rewrite String.eqb_refl.
  - destruct w2 as [up2 t2 ai2 x2 d2 lg2 tr2 fs2].
    cbn [reachable faults tables hd] in Ht, Hup2, Hf. subst up2 t2.
    unfold getImage. exec.
    destruct fs2 as [|f fs2]; [|cbn [hd] in Hf; subst f]; exec; engine_step;
      cbn [images]; rewrite Hid, filter_app, (filter_none _ _);
      try (intros a Ha; apply Z.eqb_neq; now apply Hfresh);
      cbn [filter ImageId app]; fold id; rewrite Z.eqb_refl; reflexivity.
Qed.

(** X12. An event created is the event read back, with the fixed account 1 and
    with whatever persons and images the tagging rows already name for its
    id: nothing checks that a tagging row refers to an existing event. *)
Theorem created_event_is_found (ce : Context NewEvent.t) (w : World)
    {B} (c' : Context B) (w2 : World) :
  let event := fst (Bind ce zeroNewEvent) in
  let id := next_event (autoinc w) in
  let t := tables w in
  let ps := filter (fun p => tagged (event_person_tagging t) id (PersonId p)) (persons t) in
  let im := filter (fun i => tagged (event_image_tagging t) id (ImageId i)) (images t) in
  tx w = None -> reachable w = true -> quiet_for 4 (faults w) ->
  (forall e, In e (events t) -> EventID e <> id) ->
  sql_int eng (Param c' "event_id") = id ->
  tables w2 = tables (snd (postEvent eng ce w)) ->
  reachable w2 = true -> faults w2 = [] ->
  fst (postEvent eng ce w) = Reply 201 (JSONId "EventID" id) /\
  fst (getEvent eng c' w2) =
    Reply 200
      (JSONEventDetail
         (Build_EventDatail
            (Build_Event id 1 (NewEvent.Title event) (NewEvent.Description event)
               (sql_datetime eng (NewEvent.EventDate event)))
            ps (map with_path im))).
Proof.
  intros event id t ps im Hx Hup Hq Hfresh Hid Ht Hup2 Hf.
  destruct (proj2 (proj2 (postEvent_contract ce w Hx)) Hup Hq) as (Hr & Ht' & _).
  split; [exact Hr|]. rewrite Ht' in Ht. clear Ht' Hr.
  pose proof (@getEvent_quiet _ c' w2) as D. cbv zeta in D.
  rewrite Hid, Ht in D. cbn [events persons images event_person_tagging
                               event_image_tagging] in D.
  eapply D; [exact Hup2 | rewrite Hf; apply quiet_for_nil |].
  rewrite filter_app, (filter_none _ _)
    by (intros a Ha; apply Z.eqb_neq; now apply Hfresh).
  cbn [filter EventID app]. fold id. rewrite Z.eqb_refl. reflexivity.
Qed.

(** ** Tagging, then reading *)

Lemma tagged_app tags rows key id :
  tagged (tags ++ rows) key id = tagged tags key id || tagged rows key id.
Proof. unfold tagged. apply existsb_app. Qed.

Lemma tagged_new (l : list Person) key id :
  In id (map PersonId l) ->
  tagged (map (fun p => (key, PersonId p)) l) key id = true.
Proof.
  intro H. unfold tagged. apply existsb_exists.
  apply in_map_iff in H. destruct H as [p [<- Hp]].
  exists (key, PersonId p). split.
  - apply in_map_iff. now exists p.
  - cbn. now rewrite !Z.eqb_refl.
Qed.

(** X13. Persons tagged are persons listed: after a tagging request answered
    204 for the list [l], the detail of the event, read when no call
    fails, holds every person of the table whose id is in [l]. *)
Theorem tagged_persons_are_listed (c : Context (list Person)) (w : World)
    (l : list Person) {B} (c' : Context B) (w2 : World) (e : Event) (rest : list Event) :
  let key := sql_int eng (Param c "event_id") in
  body c = Decodes l -> reachable w = true ->
  quiet_for (1 + length l + 1) (faults w) ->
  sql_int eng (Param c' "event_id") = key ->
  tables w2 = tables (snd (bindEventPersons eng c w)) ->
  reachable w2 = true -> faults w2 = [] ->
  filter (fun e => EventID e =? key) (events (tables w)) = e :: rest ->
  exists ps im,
    fst (getEvent eng c' w2) = Reply 200 (JSONEventDetail (Build_EventDatail e ps im)) /\
    forall p, In p (persons (tables w)) -> In (PersonId p) (map PersonId l) -> In p ps.
Proof.
  intros key Hbody Hup Hq Hid Ht Hup2 Hf He.
  destruct (bindEventPersons_all c w Hbody Hup Hq) as (_ & Ht' & _).
  cbv zeta in Ht'. rewrite Ht' in Ht. clear Ht'.
  pose proof (@getEvent_quiet _ c' w2) as D. cbv zeta in D.
  rewrite Hid, Ht in D. fold key in D.
  cbn [add_person_tags events persons images event_person_tagging
         event_image_tagging] in D.
  eexists. eexists. split.
  - eapply D; [exact Hup2 | rewrite Hf; apply quiet_for_nil | exact He].
  - intros p Hp Hl. apply filter_In. split; [exact Hp|].
    rewrite tagged_app. apply orb_true_iff. right.
    now apply tagged_new.
Qed.

(** ** Deleting, then reading *)

Lemma In_firstn {A} (k : nat) (l : list A) (a : A) : In a (firstn k l) -> In a l.
Proof.
  revert l. induction k as [|k IH]; intros [|b l] H; cbn [firstn] in H;
    try contradiction.
  destruct H as [-> | H]; [now left | right; now apply IH].
Qed.

Lemma deletePerson_rows {B} (c : Context B) (w : World) :
  fst (deletePerson eng c w) = Reply 204 NoContent ->
  persons (tables (snd (deletePerson eng c w))) =
    filter (fun p => negb (PersonId p =? sql_int eng (Param c "person_id")))
      (persons (tables w)).
Proof.
  destruct w as [up t ai x d lg tr fs]. unfold deletePerson.
  destruct up; steps; intro H; try discriminate H; reflexivity.
Qed.

(** X14. A person deleted is listed by no event: once the delete has answered
    204, no detail read from the rows it left holds a person of that id,
    whatever the schedule of the read, although the tagging rows that name
    the person stay. *)
Theorem deleted_person_is_not_listed {B} (c : Context B) (w : World)
    {B'} (c' : Context B') (w2 : World) :
  fst (deletePerson eng c w) = Reply 204 NoContent ->
  tables w2 = tables (snd (deletePerson eng c w)) ->
  forall s d w3,
    getEvent eng c' w2 = (Reply s (JSONEventDetail d), w3) ->
    Forall (fun p => PersonId p <> sql_int eng (Param c "person_id")) (Persons d).
Proof.
  intros H204 Ht s dt w3. pose proof (deletePerson_rows c w H204) as Hp.
  rewrite <- Ht in Hp. clear Ht H204.
  destruct w2 as [up t ai x d lg tr fs]. cbn [tables] in Hp.
  unfold getEvent. destruct up; exec; [|discriminate].
  steps; try discriminate;
    (destruct (filter _ (events t)) as [|ev evs]; cbn [map]; steps; try discriminate).
  all: match goal with |- context [for_rows ?sc ?it ?rows ?dest ?acc ?w0] =>
         destruct (for_rows sc it rows dest acc w0)
           as [[pl|r] [up1 t1 ai1 x1 d1 lg1 tr1 fs1]] eqn:E1;
         exec; [|apply for_rows_exit in E1; subst r; discriminate] end.
  all: destruct up1; exec; try discriminate.
  all: steps; try discriminate.
  all: match goal with |- context [for_rows ?sc ?it ?rows ?dest ?acc ?w0] =>
         destruct (for_rows sc it rows dest acc w0) as [[il|r] w4] eqn:E2;
         exec; [|apply for_rows_exit in E2; subst r; discriminate] end.
  all: intro H; inversion H; subst; cbn [Persons].
  all: destruct (@for_rows_prefix _ _ _ _ _ _ _ (person_rows_scan _) _ _ _ _ _ I E1)
         as [k ->].
  all: cbn [app]; apply Forall_forall; intros p Hin.
  all: apply in_map_iff in Hin; destruct Hin as [r [<- Hr]].
  all: apply In_firstn, in_map_iff in Hr; destruct Hr as [q [<- Hq]]; cbn [person_of].
  all: apply filter_In in Hq; destruct Hq as [Hq _]; rewrite Hp in Hq.
  all: apply filter_In in Hq; destruct Hq as [_ Hq].
  all: now apply negb_true_iff, Z.eqb_neq in Hq.
Qed.

(** ** A file without a row *)

(** X15. When [Commit] is the call that fails, the upload answers 500 and the
    image row is not committed, but the file written before stays in the
    image directory with the uploaded bytes. *)
Theorem failed_commit_leaves_the_file {B} (c : Context B) (w : World)
    (file : FileHeader) (e : error) (fs : list (option error)) :
  FormFile c "file" = inr file -> Size file <= 1000000 ->
  reachable w = true ->
  faults w = (repeat None 6 ++ Some e :: fs)%list ->
  fst (uploadImage eng c w) = Reply 500 NoContent /\
  tables (snd (uploadImage eng c w)) = tables w /\
  read_file (imagesPath ++ "/" ++ Fmt.verb_d (next_image (autoinc w)) ++ ".png")
    (disk (snd (uploadImage eng c w))) = Some (content file).
Proof.
  intros Hfile Hsize Hup Hf. destruct w as [up t ai x d lg tr fs0].
  cbn [reachable faults tables autoinc] in *. subst up fs0.
  assert (Hlt : (1000000 <? Size file) = false) by (apply Z.ltb_ge; exact Hsize).
  unfold uploadImage. exec. rewrite Hfile, Hlt. cbn [repeat app]. steps.
  repeat split. unfold write_file. cbn [read_file]. now rewrite String.eqb_refl.
Qed.

(** ** The text of a list query, again *)

Lemma clause_raw kw v :
  has_percent kw = false -> has_percent v = false -> clause kw v = raw_clause kw v.
Proof.
  intros Hk Hv. unfold clause, raw_clause.
  destruct (String.eqb_spec v EmptyString) as [->|_]; [reflexivity|].
  apply Sprintf0_plain. now rewrite has_percent_app, Hk, Hv.
Qed.

(** X4. Values of [limit] and [offset] without a percent sign reach the store
    as they came, unchecked: the query is the fixed text followed by
    [ limit ] and the value when there is one, then by [ offset ] and the
    value when there is one, whatever the values are. *)
Theorem list_query_verbatim {B} (c : Context B) (w : World) :
  let limit := QueryParam c "limit" in
  let offset := QueryParam c "offset" in
  has_percent limit = false -> has_percent offset = false ->
  trace (snd (getEventList eng c w)) =
    (trace w ++ [CallQueryx ("select event_id, title, description, event_date from events"
                             ++ raw_clause " limit " limit
                             ++ raw_clause " offset " offset) []])%list /\
  trace (snd (getPersonList eng c w)) =
    (trace w ++ [CallQueryx ("select * from persons"
                             ++ raw_clause " limit " limit
                             ++ raw_clause " offset " offset) []])%list /\
  trace (snd (getImageList eng c w)) =
    (trace w ++ [CallQueryx ("select * from images"
                             ++ raw_clause " limit " limit
                             ++ raw_clause " offset " offset) []])%list.
Proof.
  intros limit offset Hl Ho.
  rewrite getEventList_query, getPersonList_query, getImageList_query.
  fold limit offset.
  rewrite !(@clause_raw " limit " limit), !(@clause_raw " offset " offset)
    by (reflexivity || assumption).
  repeat split.
Qed.

(** ** When the store is down *)

(** X16. With the store unreachable every handler that needs it answers 500 and
    leaves rows, transaction and files as they were. *)
Theorem store_down_answers_500
    (ce : Context NewEvent.t) (cp : Context Person)
    (cps : Context (list Person)) (cis : Context (list Image))
    {B} (c : Context B) (w : World) (file : FileHeader) :
  reachable w = false ->
  let down (r : Response * World) :=
    fst r = Reply 500 NoContent /\ same_store w (snd r) in
  down (getEventList eng c w) /\ down (getEvent eng c w) /\
  down (postEvent eng ce w) /\ down (deleteEvent eng c w) /\
  down (getPersonList eng c w) /\ down (getPerson eng c w) /\
  down (postPerson eng cp w) /\ down (deletePerson eng c w) /\
  down (getImageList eng c w) /\ down (getImage eng c w) /\
  down (deleteImage eng c w) /\
  down (bindEventPersons eng cps w) /\ down (bindEventImages eng cis w) /\
  (FormFile c "file" = inr file -> Size file <= 1000000 ->
   down (uploadImage eng c w)).
Proof.
  destruct w as [up t ai x d lg tr fs]. cbn [reachable]. intros ->.
  unfold same_store. cbv beta zeta.
  repeat match goal with |- _ /\ _ => split end.
  all: try (intros Hfile Hsize;
            assert (Hlt : (1000000 <? Size file) = false)
              by (apply Z.ltb_ge; exact Hsize)).
  all: unfold getEventList, getEvent, postEvent, deleteEvent, getPersonList,
         getPerson, postPerson, deletePerson, getImageList, getImage, deleteImage,
         bindEventPersons, bindEventImages, uploadImage.
  all: exec; rewrite ?Hfile, ?Hlt; try bound_body; steps; repeat split.
Qed.

(** ** The answers a handler can give *)

Ltac pick := first [reflexivity | eexists; reflexivity | left; pick | right; pick].

Ltac any_loop :=
  match goal with
  | |- context [for_rows ?sc ?it ?rs ?dest ?acc ?w0] =>
      let E := fresh "E" in
      destruct (for_rows sc it rs dest acc w0) as [[? | r] [? ? ? ? ? ? ? ?]] eqn:E;
      exec; [|apply for_rows_exit in E; subst r]
  end.

Ltac answer_cases :=
  repeat first
    [ progress steps
    | bound_body
    | any_query
    | any_loop
    | match goal with
      | |- context [map _ (filter ?f ?l)] =>
          destruct (filter f l) as [|? ?]; cbn [map]
      | |- context [if ?b then _ else _] => is_var b; destruct b; exec
      end ];
  pick.

(** X17. Whatever the schedule and the request, a list handler answers 200 with
    a list or 500; a get answers 200, 404 or 500; a create answers 201 with
    an id, 409 or 500, and an upload besides these 400 for a missing or
    oversized file; a delete answers 204 or 500, never 404. No handler
    answers 400 for a body. *)
Theorem answers_of_the_handlers
    (ce : Context NewEvent.t) (cp : Context Person) {B} (c : Context B) (w : World) :
  ((exists l, fst (getEventList eng c w) = Reply 200 (JSONEvents l)) \/
   fst (getEventList eng c w) = Reply 500 NoContent) /\
  ((exists l, fst (getPersonList eng c w) = Reply 200 (JSONPersons l)) \/
   fst (getPersonList eng c w) = Reply 500 NoContent) /\
  ((exists l, fst (getImageList eng c w) = Reply 200 (JSONImages l)) \/
   fst (getImageList eng c w) = Reply 500 NoContent) /\
  ((exists d, fst (getEvent eng c w) = Reply 200 (JSONEventDetail d)) \/
   fst (getEvent eng c w) = Reply 404 (Text "not found: event") \/
   fst (getEvent eng c w) = Reply 500 NoContent) /\
  ((exists p, fst (getPerson eng c w) = Reply 200 (JSONPerson p)) \/
   fst (getPerson eng c w) = Reply 404 (Text "not found: person") \/
   fst (getPerson eng c w) = Reply 500 NoContent) /\
  ((exists i, fst (getImage eng c w) = Reply 200 (JSONImage i)) \/
   fst (getImage eng c w) = Reply 404 (Text "not found: image") \/
   fst (getImage eng c w) = Reply 500 NoContent) /\
  ((exists id, fst (postEvent eng ce w) = Reply 201 (JSONId "EventID" id)) \/
   fst (postEvent eng ce w) = Reply 409 (Text "duplicated: event") \/
   fst (postEvent eng ce w) = Reply 500 NoContent) /\
  ((exists id, fst (postPerson eng cp w) = Reply 201 (JSONId "PersonID" id)) \/
   fst (postPerson eng cp w) = Reply 409 (Text "duplicated: person") \/
   fst (postPerson eng cp w) = Reply 500 NoContent) /\
  ((exists id, fst (uploadImage eng c w) = Reply 201 (JSONId "ImageID" id)) \/
   fst (uploadImage eng c w) = Reply 409 (Text "duplicated: image") \/
   fst (uploadImage eng c w) = Reply 500 NoContent \/
   fst (uploadImage eng c w) = Reply 400 (Text "file missing") \/
   fst (uploadImage eng c w) = Reply 400 (Text "file exceed 1MByte")) /\
  (fst (deleteEvent eng c w) = Reply 204 NoContent \/
   fst (deleteEvent eng c w) = Reply 500 NoContent) /\
  (fst (deletePerson eng c w) = Reply 204 NoContent \/
   fst (deletePerson eng c w) = Reply 500 NoContent) /\
  (fst (deleteImage eng c w) = Reply 204 NoContent \/
   fst (deleteImage eng c w) = Reply 500 NoContent).
Proof.
  destruct w as [up t ai x d lg tr fs].
  repeat match goal with |- _ /\ _ => split end.
  all: unfold getEventList, getEvent, postEvent, deleteEvent, getPersonList,
         getPerson, postPerson, deletePerson, getImageList, getImage, deleteImage,
         uploadImage.
  1-3: set (q := String.append _ (String.append _ _)).
  all: destruct up; exec.
  all: try (destruct (FormFile c "file") as [?|file]; exec; [pick|];
            destruct (1000000 <? Size file); exec; [pick|]).
  all: answer_cases.
Qed.

End Properties.

(** ** Startup *)

(** [main] never looks at whether the store accepts connections. *)
Lemma main_ignores_store_up (p : Process) (up : bool) :
  main (Build_Process (Getenv p) (sqlx_Open p) up (Start p)) = main p.
Proof. reflexivity. Qed.

(** Once the server runs with the store down, a request is answered 500. *)
Lemma request_with_store_down (eng : Engine) {B} (c : Context B) (w : World) :
  reachable w = false ->
  fst (getPerson eng c w) = Reply 500 NoContent.
Proof.
  destruct w as [up t ai x d lg tr fs]. cbn [reachable]. intros ->.
  unfold getPerson. exec. reflexivity.
Qed.

(** C7, as the code has it. When [ConnectDB] returns an error, [main] logs
    it with [Fatalf] and exits without starting the server; and [main] exits
    in two ways only: that one, and [Fatal] on the error [e.Start] returned,
    after the server was started on a pool limited to 10 connections. *)
Theorem main_fatal_paths (p : Process) :
  (forall err,
      ConnectDB p (NewMySQLConnectionEnv p) = inl err ->
      main p = Exited None (Fatalf "failed to connect db: %v" [LErr err]))
  /\
  (forall served entry,
      main p = Exited served entry ->
      (exists err,
          ConnectDB p (NewMySQLConnectionEnv p) = inl err /\
          served = None /\
          entry = Fatalf "failed to connect db: %v" [LErr err])
      \/
      (exists db err,
          ConnectDB p (NewMySQLConnectionEnv p) = inr db /\
          Start p ":1323" = Some err /\
          served = Some (SetMaxOpenConns 10 db) /\
          entry = Fatal [LErr err])).
Proof.
  unfold main. split.
  - intros err ->. reflexivity.
  - intros served entry.
    destruct (ConnectDB p (NewMySQLConnectionEnv p)) as [err|db].
    + intro H. inversion H. left. exists err. auto.
    + destruct (Start p ":1323") as [err|]; intro H; inversion H.
      right. exists db, err. auto.
Qed.

(** ** The theorems at concrete inputs *)

Lemma main_fatal_paths_witness :
  main (Build_Process (fun _ => EmptyString)
          (fun _ _ => Some (ErrOther "invalid DSN")) true (fun _ => None)) =
  Exited None (Fatalf "failed to connect db: %v" [LErr (ErrOther "invalid DSN")]).
Proof.
  apply (proj1 (main_fatal_paths
                  (Build_Process (fun _ => EmptyString)
                     (fun _ _ => Some (ErrOther "invalid DSN")) true (fun _ => None)))).
  reflexivity.
Defined.

(** C7 as stated fails: with the store down and every setting at its
    default, [main] does not exit before the server starts, it starts the
    server and runs; and with the store up, [main] exits fatally when
    [e.Start] returns an error. *)
Lemma main_store_down_counterexample :
  ~ (store_up (Sample.process false None) = false ->
     exists entry, main (Sample.process false None) = Exited None entry)
  /\
  ~ (forall served entry,
        main (Sample.process true (Some (ErrOther "listen tcp :1323: bind: address already in use")))
          = Exited served entry ->
        store_up (Sample.process true (Some (ErrOther "listen tcp :1323: bind: address already in use")))
          = false).
Proof.
  split.
  - intro H. destruct (H eq_refl) as [entry E]. discriminate E.
  - intro H. specialize (H _ _ eq_refl). discriminate H.
Qed.

Lemma bind_is_all_or_nothing_witness :
  fst (bindEventPersons Sample.eng
         (Sample.request "1" (Decodes [Sample.ada; Sample.grace]))
         (Sample.with_faults [None; None; Some Sample.duplicate])) =
    Reply 409 (Text "duplicated: bind")
  /\
  tables (snd (bindEventPersons Sample.eng
                 (Sample.request "1" (Decodes [Sample.ada; Sample.grace]))
                 (Sample.with_faults [None; None; Some Sample.duplicate]))) =
    Sample.store.
Proof.
  destruct (proj1 (proj2 (bind_is_all_or_nothing Sample.eng))
              (Sample.request "1" (Decodes [Sample.ada; Sample.grace]))
              (Sample.with_faults [None; None; Some Sample.duplicate])
              [Sample.ada] Sample.grace [] Sample.duplicate []
              eq_refl eq_refl eq_refl) as [Hr [Ht _]].
  split; [exact Hr | exact Ht].
Defined.

Lemma uploadImage_too_large_witness :
  uploadImage Sample.eng (Sample.upload 2000000) Sample.world =
  (Reply 400 (Text "file exceed 1MByte"), Sample.world).
Proof.
  apply (@uploadImage_too_large Sample.eng unit (Sample.upload 2000000) Sample.world
           (Build_FileHeader "photo.jpg" "image/jpeg" 2000000 "bytes")).
  - reflexivity.
  - reflexivity.
Defined.

Lemma getEvent_without_tags_witness :
  exists e,
    In e (events Sample.store) /\ EventID e = 2 /\
    fst (getEvent Sample.eng (Sample.bodiless "2") Sample.world) =
      Reply 200 (JSONEventDetail (Build_EventDatail e [] [])).
Proof.
  apply (proj1 (@getEvent_without_tags Sample.eng unit (Sample.bodiless "2")
                  Sample.world eq_refl (Forall_nil _))).
  - exists Sample.picnic. split; [right; left; reflexivity | reflexivity].
  - intros r H. destruct H.
  - intros r [H | []]. subst r. discriminate.
Defined.

Lemma create_is_transactional_witness :
  fst (postPerson Sample.eng (Sample.request EmptyString (Decodes Sample.ada))
         (Sample.with_faults [None; Some Sample.duplicate])) =
    Reply 409 (Text "duplicated: person")
  /\
  tables (snd (postPerson Sample.eng (Sample.request EmptyString (Decodes Sample.ada))
                 (Sample.with_faults [None; Some Sample.duplicate]))) =
    Sample.store.
Proof.
  destruct (proj1 (proj2 (proj1 (proj2
              (@create_is_transactional Sample.eng
                 (Sample.request EmptyString (Decodes (NewEvent.mk "t" "d" 0)))
                 (Sample.request EmptyString (Decodes Sample.ada))
                 unit (Sample.upload 5)
                 (Build_FileHeader "photo.jpg" "image/jpeg" 5 "bytes")
                 (Sample.with_faults [None; Some Sample.duplicate])))
              eq_refl))
              eq_refl [] 1%nat Sample.duplicate [] eq_refl
              (le_n_S _ _ (le_n_S _ _ (Nat.le_0_l _))) eq_refl) as [Hr [Ht _]].
  split; [exact Hr | exact Ht].
Defined.

Lemma delete_then_get_not_found_witness :
  fst (deletePerson Sample.eng (Sample.bodiless "9") Sample.world) = Reply 204 NoContent
  /\
  fst (getPerson Sample.eng (Sample.bodiless "1")
         (snd (deletePerson Sample.eng (Sample.bodiless "1") Sample.world))) =
    Reply 404 (Text "not found: person").
Proof.
  split.
  - apply (proj1 (proj1 (proj2 (@delete_then_get_not_found Sample.eng unit
                                  (Sample.bodiless "9") Sample.world))));
      [reflexivity | constructor].
  - apply (proj2 (proj2 (proj1 (proj2 (@delete_then_get_not_found Sample.eng unit
                                         (Sample.bodiless "1") Sample.world)))));
      reflexivity.
Defined.

Lemma image_display_path_witness :
  Forall (fun ip => ImagePath ip =
                      "/images/" ++ Fmt.verb_d (ImageId (Image_ ip)) ++ ".png")
    [Build_ImageAndPath "/images/7.png" Sample.photo].
Proof.
  apply (proj1 (@image_display_path Sample.eng unit (Sample.bodiless "1") Sample.world)
           200
           (Build_EventDatail Sample.party []
              [Build_ImageAndPath "/images/7.png" Sample.photo])
           (snd (getEvent Sample.eng (Sample.bodiless "1") Sample.world))).
  reflexivity.
Defined.

Lemma uploadImage_open_error_discarded_witness :
  exists rest,
    trace (snd (uploadImage Sample.eng (Sample.upload 5)
                  (Sample.with_faults [Some (ErrOther "open: no such file")]))) =
    (CallOpen "photo.jpg" :: CallBeginx
     :: CallTxExec "INSERT INTO `images` (`image_id`, `image_name`, `mime_type`) VALUES (default, ?, ?)"
          [AStr "photo.jpg"; AStr "image/jpeg"]
     :: rest)%list.
Proof.
  apply (@uploadImage_open_error_discarded Sample.eng unit (Sample.upload 5)
           (Sample.with_faults [Some (ErrOther "open: no such file")])
           (Build_FileHeader "photo.jpg" "image/jpeg" 5 "bytes")
           (Some (ErrOther "open: no such file")) []).
  - reflexivity.
  - discriminate.
  - reflexivity.
  - reflexivity.
  - reflexivity.
Defined.

(** ** Startup, further *)

Lemma getEnv_not_empty (p : Process) (key d : string) :
  d <> EmptyString -> getEnv p key d <> EmptyString.
Proof.
  intro Hd. unfold getEnv.
  destruct (String.eqb_spec (Getenv p key) EmptyString) as [E|N]; cbn [negb]; assumption.
Qed.

(** X18. No connection setting is ever empty: a variable that is unset or set
    to the empty text gives way to its default, so that, for one, an empty
    password cannot be configured. *)
Theorem settings_never_empty (p : Process) :
  let mc := NewMySQLConnectionEnv p in
  Host mc <> EmptyString /\ Port mc <> EmptyString /\ User mc <> EmptyString /\
  DBName mc <> EmptyString /\ Password mc <> EmptyString.
Proof.
  cbv zeta. unfold NewMySQLConnectionEnv. cbn [Host Port User DBName Password].
  repeat split; apply getEnv_not_empty; discriminate.
Qed.

(** X19. Whenever [e.Start] is reached, the pool it runs with is the one
    [sqlx.Open] accepted for the data source name of the settings, capped
    at 10 open connections. *)
Theorem server_runs_on_capped_pool (p : Process) (db : Pool) :
  main p = Running db \/ (exists entry, main p = Exited (Some db) entry) ->
  MaxOpenConns db = 10 /\
  dsn_of db = dsn (NewMySQLConnectionEnv p) /\
  sqlx_Open p "mysql" (dsn_of db) = None.
Proof.
  unfold main, ConnectDB.
  destruct (sqlx_Open p "mysql" (dsn (NewMySQLConnectionEnv p))) as [err|] eqn:E.
  - intros [H | [entry H]]; discriminate H.
  - destruct (Start p ":1323") as [err|]; intros [H | [entry H]];
      try discriminate H; inversion H; subst; cbn; auto.
Qed.

(** ** The further theorems at concrete inputs *)

Lemma server_runs_on_capped_pool_witness :
  MaxOpenConns
    (Build_Pool "poc_webapp:poc_webapp@tcp(127.0.0.1:3306)/poc_webapp?parseTime=true&loc=Asia%2FTokyo" 10)
  = 10.
Proof.
  apply (proj1 (server_runs_on_capped_pool (Sample.process false None)
                  (or_introl eq_refl))).
Defined.

Lemma list_returns_whole_table_witness :
  fst (getPersonList Sample.eng (Sample.bodiless EmptyString) Sample.world) =
  Reply 200 (JSONPersons [Sample.ada; Sample.grace]).
Proof.
  apply (proj1 (proj2 (@list_returns_whole_table Sample.eng unit
                         (Sample.bodiless EmptyString) Sample.world
                         (conj eq_refl eq_refl) eq_refl))).
  apply Forall_nil.
Defined.

Lemma list_truncated_when_Next_fails_witness :
  fst (getPersonList Sample.eng (Sample.bodiless EmptyString)
         (Sample.with_faults [None; None; None; Some (ErrOther "bad connection")])) =
  Reply 200 (JSONPersons [Sample.ada]).
Proof.
  apply (proj1 (proj2 (@list_truncated_when_Next_fails Sample.eng unit
                         (Sample.bodiless EmptyString)
                         (Sample.with_faults
                            [None; None; None; Some (ErrOther "bad connection")])
                         (ErrOther "bad connection") []
                         (conj eq_refl eq_refl) eq_refl))
           [Sample.ada] Sample.grace []); reflexivity.
Defined.

Lemma getImageList_paths_witness :
  Forall (fun ip => ImagePath ip =
                      "/images/" ++ Fmt.verb_d (ImageId (Image_ ip)) ++ ".png")
    [Build_ImageAndPath "/images/7.png" Sample.photo].
Proof.
  apply (@getImageList_paths Sample.eng unit (Sample.bodiless EmptyString) Sample.world
           200 _ (snd (getImageList Sample.eng (Sample.bodiless EmptyString) Sample.world))).
  reflexivity.
Defined.

Lemma list_query_verbatim_witness :
  trace (snd (getPersonList Sample.eng
                (Build_Context (fun _ => EmptyString)
                   (fun key => if String.eqb key "limit" then "1; drop table persons"
                               else EmptyString)
                   (Decodes tt) Sample.no_file)
                Sample.world)) =
  [CallQueryx "select * from persons limit 1; drop table persons" []].
Proof.
  apply (proj1 (proj2 (@list_query_verbatim Sample.eng unit
                         (Build_Context (fun _ => EmptyString)
                            (fun key => if String.eqb key "limit"
                                        then "1; drop table persons" else EmptyString)
                            (Decodes tt) Sample.no_file)
                         Sample.world eq_refl eq_refl))).
Defined.

Lemma writes_leave_no_transaction_witness :
  tx (snd (deletePerson Sample.eng (Sample.bodiless "1")
             (Sample.with_faults [None; None; Some (ErrOther "bad connection")]))) = None.
Proof.
  apply (@writes_leave_no_transaction Sample.eng
           (Sample.request EmptyString (Decodes (NewEvent.mk "t" "d" 0)))
           (Sample.request EmptyString (Decodes Sample.ada))
           (Sample.request "1" (Decodes [Sample.ada]))
           (Sample.request "1" (Decodes [Sample.photo]))
           unit (Sample.bodiless "1")
           (Sample.with_faults [None; None; Some (ErrOther "bad connection")])
           eq_refl).
Defined.

Lemma getEvent_detail_witness :
  fst (getEvent Sample.eng (Sample.bodiless "1") Sample.world) =
  Reply 200 (JSONEventDetail
               (Build_EventDatail Sample.party []
                  [Build_ImageAndPath "/images/7.png" Sample.photo])).
Proof.
  apply (@getEvent_detail Sample.eng unit (Sample.bodiless "1") Sample.world
           Sample.party [] eq_refl (Forall_nil _) eq_refl).
Defined.

Lemma created_person_is_found_witness :
  fst (getPerson Sample.eng (Sample.bodiless "3")
         (snd (postPerson Sample.eng
                 (Sample.request EmptyString (Decodes (Build_Person 0 "Alan" "Turing")))
                 Sample.world))) =
  Reply 200 (JSONPerson (Build_Person 3 "Alan" "Turing")).
Proof.
  apply (@created_person_is_found Sample.eng
           (Sample.request EmptyString (Decodes (Build_Person 0 "Alan" "Turing")))
           Sample.world unit (Sample.bodiless "3")); try reflexivity.
  - apply Forall_nil.
  - intros p [<- | [<- | []]]; discriminate.
Defined.

Lemma uploaded_image_is_found_witness :
  read_file "../public/images/8.png"
    (disk (snd (uploadImage Sample.eng (Sample.upload 5) Sample.world))) = Some "bytes"
  /\
  fst (getImage Sample.eng (Sample.bodiless "8")
         (snd (uploadImage Sample.eng (Sample.upload 5) Sample.world))) =
  Reply 200 (JSONImage (Build_ImageAndPath "/images/8.png"
                          (Build_Image 8 "photo.jpg" "image/jpeg"))).
Proof.
  apply (@uploaded_image_is_found Sample.eng unit (Sample.upload 5) Sample.world
           (Build_FileHeader "photo.jpg" "image/jpeg" 5 "bytes")
           unit (Sample.bodiless "8")); try reflexivity.
  - discriminate.
  - apply Forall_nil.
  - intros i [<- | []]; discriminate.
Defined.

Lemma created_event_is_found_witness :
  fst (getEvent Sample.eng (Sample.bodiless "3")
         (snd (postEvent Sample.eng
                 (Sample.request EmptyString (Decodes (NewEvent.mk "launch" "pad 39" 5)))
                 Sample.world))) =
  Reply 200 (JSONEventDetail
               (Build_EventDatail (Build_Event 3 1 "launch" "pad 39" 5) [] [])).
Proof.
  apply (@created_event_is_found Sample.eng
           (Sample.request EmptyString (Decodes (NewEvent.mk "launch" "pad 39" 5)))
           Sample.world unit (Sample.bodiless "3")); try reflexivity.
  - apply Forall_nil.
  - intros e [<- | [<- | []]]; discriminate.
Defined.

Lemma tagged_persons_are_listed_witness :
  exists ps im,
    fst (getEvent Sample.eng (Sample.bodiless "2")
           (snd (bindEventPersons Sample.eng
                   (Sample.request "2" (Decodes [Sample.grace])) Sample.world))) =
    Reply 200 (JSONEventDetail (Build_EventDatail Sample.picnic ps im)) /\
    In Sample.grace ps.
Proof.
  destruct (@tagged_persons_are_listed Sample.eng
              (Sample.request "2" (Decodes [Sample.grace])) Sample.world
              [Sample.grace] unit (Sample.bodiless "2")
              (snd (bindEventPersons Sample.eng
                      (Sample.request "2" (Decodes [Sample.grace])) Sample.world))
              Sample.picnic []
              eq_refl eq_refl (Forall_nil _) eq_refl eq_refl eq_refl eq_refl eq_refl)
    as [ps [im [H1 H2]]].
  exists ps, im. split; [exact H1|].
  apply H2; [right; left; reflexivity | left; reflexivity].
Defined.

Lemma deleted_person_is_not_listed_witness :
  Forall (fun p => PersonId p <> 1) [Sample.grace].
Proof.
  apply (@deleted_person_is_not_listed Sample.eng unit (Sample.bodiless "1") Party.world
           unit (Sample.bodiless "1") Party.after_delete)
    with (s := 200) (d := Build_EventDatail Sample.party [Sample.grace] [])
         (w3 := snd (getEvent Sample.eng (Sample.bodiless "1") Party.after_delete)).
  - vm_compute. reflexivity.
  - reflexivity.
  - vm_compute. reflexivity.
Defined.

Lemma failed_commit_leaves_the_file_witness :
  fst (uploadImage Sample.eng (Sample.upload 5)
         (Sample.with_faults
            [None; None; None; None; None; None; Some (ErrOther "bad connection")])) =
    Reply 500 NoContent
  /\
  read_file "../public/images/8.png"
    (disk (snd (uploadImage Sample.eng (Sample.upload 5)
                  (Sample.with_faults
                     [None; None; None; None; None; None;
                      Some (ErrOther "bad connection")])))) = Some "bytes".
Proof.
  assert (H : 5 <= 1000000) by discriminate.
  destruct (@failed_commit_leaves_the_file Sample.eng unit (Sample.upload 5)
              (Sample.with_faults
                 [None; None; None; None; None; None; Some (ErrOther "bad connection")])
              (Build_FileHeader "photo.jpg" "image/jpeg" 5 "bytes")
              (ErrOther "bad connection") []
              eq_refl H eq_refl eq_refl) as [H1 [_ H2]].
  split; [exact H1 | exact H2].
Defined.

Lemma store_down_answers_500_witness :
  fst (getEvent Sample.eng (Sample.bodiless "1")
         (serving (Sample.process false None) Sample.store (Build_AutoInc 3 3 8) [])) =
  Reply 500 NoContent.
Proof.
  apply (proj1 (proj1 (proj2
           (@store_down_answers_500 Sample.eng
              (Sample.request EmptyString (Decodes (NewEvent.mk "t" "d" 0)))
              (Sample.request EmptyString (Decodes Sample.ada))
              (Sample.request "1" (Decodes [Sample.ada]))
              (Sample.request "1" (Decodes [Sample.photo]))
              unit (Sample.bodiless "1")
              (serving (Sample.process false None) Sample.store (Build_AutoInc 3 3 8) [])
              (Build_FileHeader "photo.jpg" "image/jpeg" 5 "bytes")
              eq_refl)))).
Defined.
